(** * CrossWalk: the [CWData] data structure ([src/crosswalk/data.py])

    A shallow embedding of the constructor of [CWData], of its validation
    method [check] and of [sort_by_study_id], together with the properties
    of the constructed object.

    Conventions of the embedding.
    - A one-dimensional numpy array is an [ndarray]: its dtype is either
      numeric (entries are rationals; NaN and infinities are not modelled,
      the code only compares entries) or string.
    - Integer arrays of counts and of indices are lists of [nat].
    - A Python [dict] is an association list in insertion order; the
      covariates dict is an object of a store, because the constructor keeps
      a reference to the caller's dict and mutates it.
    - A computation is a function of the store that returns a value or a
      raised exception, and the store it leaves behind. *)

From Stdlib Require Import QArith Ascii Lqa.
From Stdlib Require OrderedTypeEx DecimalString DecimalNat.
From stdpp Require Import gmap strings list sorting.

Close Scope Q_scope.

(** ** Python values, exceptions and the store *)

Inductive exn := AssertionError | ValueError | IndexError | KeyError | TypeError.

Inductive result (A : Type) :=
| Ok (a : A)
| Raise (e : exn).
Arguments Ok {A} a.
Arguments Raise {A} e.

Inductive ndarray :=
| NumArray (xs : list Q)
| StrArray (xs : list string).

Inductive scalar :=
| SNum (x : Q)
| SStr (s : string).

(** Keys of a dict: strings, or some other hashable object (an integer). *)
Inductive pykey :=
| KStr (s : string)
| KInt (z : Z).

#[global] Instance Q_eq_dec : EqDecision Q.
Proof. solve_decision. Defined.
#[global] Instance scalar_eq_dec : EqDecision scalar.
Proof. solve_decision. Defined.
#[global] Instance pykey_eq_dec : EqDecision pykey.
Proof. solve_decision. Defined.
#[global] Instance ndarray_eq_dec : EqDecision ndarray.
Proof. solve_decision. Defined.
#[global] Instance exn_eq_dec : EqDecision exn.
Proof. solve_decision. Defined.

(** *** Dicts: association lists in insertion order *)

Section dict.
Context {K V : Type} `{EqDecision K}.

(** [d[k]] *)
Fixpoint dict_get (k : K) (d : list (K * V)) : option V :=
  match d with
  | [] => None
  | (k', v) :: d' => if decide (k = k') then Some v else dict_get k d'
  end.

(** [d[k] = v]: an existing key keeps its position, a new one goes last. *)
Fixpoint dict_set (k : K) (v : V) (d : list (K * V)) : list (K * V) :=
  match d with
  | [] => [(k, v)]
  | (k', v') :: d' =>
      if decide (k = k') then (k, v) :: d' else (k', v') :: dict_set k v d'
  end.

(** [d.update(other)] *)
Definition dict_update (d other : list (K * V)) : list (K * V) :=
  foldl (λ acc kv, dict_set kv.1 kv.2 acc) d other.

(** [list(d)]: the keys, in iteration order. *)
Definition dict_keys (d : list (K * V)) : list K := d.*1.
End dict.

Definition loc := positive.
Abbreviation pydict := (list (pykey * ndarray)).

(** The store: the dict objects, and the warnings issued so far. *)
Record world := World {
  heap : gmap loc pydict;
  warned : list string
}.

(** *** The monad of computations *)

Definition M (A : Type) : Type := world → result A * world.

Definition ret {A} (a : A) : M A := λ w, (Ok a, w).
Definition raise {A} (e : exn) : M A := λ w, (Raise e, w).
Definition bind {A B} (m : M A) (k : A → M B) : M B :=
  λ w, match m w with
       | (Ok a, w') => k a w'
       | (Raise e, w') => (Raise e, w')
       end.

Declare Scope py_scope.
Delimit Scope py_scope with py.
Notation "x <- m ;; k" := (bind m (λ x, k))
  (at level 100, m at next level, right associativity) : py_scope.
Notation "m ;;; k" := (bind m (λ _, k))
  (at level 100, right associativity) : py_scope.
Open Scope py_scope.

(** [assert b] *)
Definition py_assert (b : bool) : M unit :=
  if b then ret () else raise AssertionError.

(** [warnings.warn(msg)] *)
Definition warn (msg : string) : M unit :=
  λ w, (Ok (), World (heap w) (warned w ++ [msg])).

(** [{}]: a new dict object. *)
Definition new_dict : M loc :=
  λ w, let l := fresh (dom (heap w)) in
       (Ok l, World (<[l := []]> (heap w)) (warned w)).

(** Reading the dict a reference points to.  A reference to something that
    is not a dict is outside the documented input ([dict | None]). *)
Definition read_dict (l : loc) : M pydict :=
  λ w, match heap w !! l with
       | Some d => (Ok d, w)
       | None => (Raise TypeError, w)
       end.

Definition write_dict (l : loc) (d : pydict) : M unit :=
  λ w, (Ok (), World (<[l := d]> (heap w)) (warned w)).

(** [for x in xs: body(x)] *)
Fixpoint for_each {A} (xs : list A) (body : A → M unit) : M unit :=
  match xs with
  | [] => ret ()
  | x :: xs' => body x ;;; for_each xs' body
  end.

(** ** numpy *)

(** [a.size] (and, for one dimension, [a.shape == (n,)] is [size a = n]). *)
Definition size (a : ndarray) : nat :=
  match a with
  | NumArray xs => length xs
  | StrArray xs => length xs
  end.

(** [np.ones(n)] *)
Definition np_ones (n : nat) : ndarray := NumArray (replicate n 1%Q).

(** [x > 0.0] on one entry. *)
Definition gt0 (x : Q) : bool := negb (Qle_bool x 0).

(** [(a > 0.0).all()] *)
Definition all_gt0 (a : ndarray) : M bool :=
  match a with
  | NumArray xs => ret (forallb gt0 xs)
  | StrArray _ => raise TypeError
  end.

(** The entries of an array as scalars. *)
Definition scalars (a : ndarray) : list scalar :=
  match a with
  | NumArray xs => SNum <$> xs
  | StrArray xs => SStr <$> xs
  end.

(** A lookup that raises when there is nothing to find. *)
Definition or_raise {A} (e : exn) (o : option A) : M A :=
  match o with
  | Some a => ret a
  | None => raise e
  end.

(** [a[i]] for an integer [i]. *)
Definition getitem (a : ndarray) (i : nat) : M scalar :=
  or_raise IndexError (scalars a !! i).

(** [a[idx]] for an array of indices [idx]: the entries at those positions,
    in the order of [idx]; a position out of range raises [IndexError]. *)
Definition gather {A} (xs : list A) (idx : list nat) : option (list A) :=
  mapM (λ i, xs !! i) idx.

Definition index_array (a : ndarray) (idx : list nat) : option ndarray :=
  match a with
  | NumArray xs => NumArray <$> gather xs idx
  | StrArray xs => StrArray <$> gather xs idx
  end.

Definition take (a : ndarray) (idx : list nat) : M ndarray :=
  or_raise IndexError (index_array a idx).

(** [np.argmax(sizes)] and [np.argmin(sizes)]: the first position of the
    extremum; an empty sequence raises [ValueError]. *)
Fixpoint arg_extremum (better : nat → nat → bool)
    (best_i best i : nat) (l : list nat) : nat :=
  match l with
  | [] => best_i
  | x :: l' =>
      if better x best then arg_extremum better i x (S i) l'
      else arg_extremum better best_i best (S i) l'
  end.

Definition argmax (l : list nat) : option nat :=
  match l with
  | [] => None
  | x :: l' => Some (arg_extremum (λ a b, b <? a)%nat 0 x 1 l')
  end.

Definition argmin (l : list nat) : option nat :=
  match l with
  | [] => None
  | x :: l' => Some (arg_extremum (λ a b, a <? b)%nat 0 x 1 l')
  end.

Definition np_argmax (l : list nat) : M nat := or_raise ValueError (argmax l).
Definition np_argmin (l : list nat) : M nat := or_raise ValueError (argmin l).

(** [enumerate(xs)] *)
Definition enumerate {A} (xs : list A) : list (nat * A) :=
  zip (seq 0 (length xs)) xs.

(** ** utils *)

(** Modelled from the spec: [utils.is_numerical_array] is not part of the
    sources; section 4.3 says it confirms that an array is numeric and
    matches the expected shape. *)
Definition is_numerical_array (x : ndarray) (n : nat) : bool :=
  match x with
  | NumArray xs => bool_decide (length xs = n)
  | StrArray _ => false
  end.

Section structure.
Context {A : Type} (cmp : A → A → comparison).

Fixpoint insert_unique (x : A) (l : list A) : list A :=
  match l with
  | [] => [x]
  | y :: l' =>
      match cmp x y with
      | Lt => x :: y :: l'
      | Eq => y :: l'
      | Gt => y :: insert_unique x l'
      end
  end.

(** The ascending-sorted sequence of the distinct entries. *)
Definition unique_sorted (xs : list A) : list A :=
  foldr insert_unique [] xs.

Fixpoint occurrences (u : A) (xs : list A) : nat :=
  match xs with
  | [] => 0
  | x :: xs' =>
      match cmp u x with
      | Eq => S (occurrences u xs')
      | _ => occurrences u xs'
      end
  end.

Definition group_structure (xs : list A) : nat * list nat * list A :=
  let u := unique_sorted xs in
  (length u, (λ v, occurrences v xs) <$> u, u).

(** The strict order that [cmp] decides. *)
Definition cmp_lt : relation A := λ x y, cmp x y = Lt.
End structure.

(** Modelled from the spec: [utils.array_structure] is not part of the
    sources; section 4.2 says it returns [(num_distinct, counts,
    unique_sorted)], where [unique_sorted] is the ascending-sorted sequence
    of the distinct labels, [counts[i]] is the number of occurrences of
    [unique_sorted[i]] and [num_distinct = len(unique_sorted)]. *)
Definition array_structure (x : ndarray) : nat * list nat * ndarray :=
  match x with
  | NumArray xs =>
      let '(n, c, u) := group_structure Qcompare xs in (n, c, NumArray u)
  | StrArray xs =>
      let '(n, c, u) := group_structure String.compare xs in (n, c, StrArray u)
  end.

(** ** The [CWData] class *)

(** The attributes of a constructed object. *)
Record CWData := mkCWData {
  obs : ndarray;
  obs_se : ndarray;
  alt_dorms : ndarray;
  ref_dorms : ndarray;
  covs : loc;
  study_id : option ndarray;
  num_obs : nat;
  num_covs : nat;
  num_dorms : nat;
  dorm_sizes : list nat;
  unique_dorms : ndarray;
  num_alt_dorms : nat;
  alt_dorm_sizes : list nat;
  unique_alt_dorms : ndarray;
  num_ref_dorms : nat;
  ref_dorm_sizes : list nat;
  unique_ref_dorms : ndarray;
  max_dorm : scalar;
  min_dorm : scalar;
  max_alt_dorm : scalar;
  min_alt_dorm : scalar;
  max_ref_dorm : scalar;
  dorm_idx : list (scalar * nat);
  num_studies : nat;
  study_sizes : list nat;
  unique_study_id : option ndarray
}.

Definition intercept_warning : string :=
  "Covariates must at least include intercept.Adding intercept automatically.".

(** [not d] for a dict. *)
Definition dict_is_empty (d : pydict) : bool :=
  match d with [] => true | _ => false end.

(** [isinstance(k, str)] *)
Definition is_str (k : pykey) : bool :=
  match k with KStr _ => true | KInt _ => false end.

Section CWData.
(** [np.argsort], called with its default [kind], and the conversion of a
    number to its string, are numpy's: they are parameters here. *)
Variable argsort : ndarray → list nat.
Variable str_of_num : Q → string.

Definition strs (a : ndarray) : list string :=
  match a with
  | NumArray xs => str_of_num <$> xs
  | StrArray xs => xs
  end.

(** [a.astype(str)] *)
Definition astype_str (a : ndarray) : ndarray := StrArray (strs a).

(** [np.hstack((a, b))] *)
Definition np_hstack (a b : ndarray) : ndarray :=
  match a, b with
  | NumArray xs, NumArray ys => NumArray (xs ++ ys)
  | _, _ => StrArray (strs a ++ strs b)
  end.

(** [CWData.check], on the attributes it reads. *)
Definition check (obs obs_se alt_dorms ref_dorms : ndarray) (covs : loc)
    (study_id : option ndarray) (num_obs num_covs : nat) : M unit :=
  py_assert (is_numerical_array obs num_obs) ;;;
  py_assert (is_numerical_array obs_se num_obs) ;;;
  positive <- all_gt0 obs_se ;;
  py_assert positive ;;;
  (* alt_dorms and ref_dorms are arrays: both isinstance tests hold *)
  py_assert (bool_decide (size alt_dorms = num_obs)) ;;;
  py_assert (bool_decide (size ref_dorms = num_obs)) ;;;
  d <- read_dict covs ;;
  py_assert (bool_decide (length d = num_covs)) ;;;
  for_each (dict_keys d) (λ cov_name,
    py_assert (is_str cov_name) ;;;
    d <- read_dict covs ;;
    x <- or_raise KeyError (dict_get cov_name d) ;;
    py_assert (is_numerical_array x num_obs)) ;;;
  match study_id with
  | Some ids => py_assert (is_numerical_array ids num_obs)
  | None => ret ()
  end.

(** [CWData.sort_by_study_id] *)
Definition sort_by_study_id (self : CWData) : M CWData :=
  match study_id self with
  | Some ids =>
      let sort_id := argsort ids in
      study_id' <- take ids sort_id ;;
      obs' <- take (obs self) sort_id ;;
      obs_se' <- take (obs_se self) sort_id ;;
      alt_dorms' <- take (alt_dorms self) sort_id ;;
      ref_dorms' <- take (ref_dorms self) sort_id ;;
      d <- read_dict (covs self) ;;
      for_each (dict_keys d) (λ cov_name,
        d <- read_dict (covs self) ;;
        x <- or_raise KeyError (dict_get cov_name d) ;;
        x' <- take x sort_id ;;
        write_dict (covs self) (dict_set cov_name x' d)) ;;;
      ret (mkCWData obs' obs_se' alt_dorms' ref_dorms' (covs self)
             (Some study_id') (num_obs self) (num_covs self)
             (num_dorms self) (dorm_sizes self) (unique_dorms self)
             (num_alt_dorms self) (alt_dorm_sizes self)
             (unique_alt_dorms self)
             (num_ref_dorms self) (ref_dorm_sizes self)
             (unique_ref_dorms self)
             (max_dorm self) (min_dorm self) (max_alt_dorm self)
             (min_alt_dorm self) (max_ref_dorm self) (dorm_idx self)
             (num_studies self) (study_sizes self) (unique_study_id self))
  | None => ret self
  end.

(** [CWData.__init__]: [covs] is [None] or a reference to the caller's
    dict.  Attributes are bound in the order of the assignments; an
    attribute assigned twice is bound twice, and the object holds the last
    binding. *)
Definition __init__ (obs obs_se alt_dorms ref_dorms : ndarray)
    (covs : option loc) (study_id : option ndarray)
    (add_intercept : bool) : M CWData :=
  let alt_dorms := astype_str alt_dorms in
  let ref_dorms := astype_str ref_dorms in
  covs <- match covs with None => new_dict | Some l => ret l end ;;
  let num_obs := size obs in
  d <- read_dict covs ;;
  add_intercept <-
    (if dict_is_empty d && negb add_intercept
     then warn intercept_warning ;;; ret true
     else ret add_intercept) ;;
  (if add_intercept : bool
   then d <- read_dict covs ;;
        write_dict covs
          (dict_update d [(KStr "intercept", np_ones num_obs)])
   else ret ()) ;;;
  d <- read_dict covs ;;
  let num_covs := length d in
  check obs obs_se alt_dorms ref_dorms covs study_id num_obs num_covs ;;;
  let '(num_dorms, dorm_sizes, unique_dorms) :=
    array_structure (np_hstack alt_dorms ref_dorms) in
  let '(num_alt_dorms, alt_dorm_sizes, unique_alt_dorms) :=
    array_structure alt_dorms in
  let '(num_ref_dorms, ref_dorm_sizes, unique_ref_dorms) :=
    array_structure ref_dorms in
  i <- np_argmax dorm_sizes ;;
  max_dorm <- getitem unique_dorms i ;;
  i <- np_argmin dorm_sizes ;;
  min_dorm <- getitem unique_dorms i ;;
  i <- np_argmax alt_dorm_sizes ;;
  max_alt_dorm <- getitem unique_alt_dorms i ;;
  i <- np_argmin alt_dorm_sizes ;;
  min_alt_dorm <- getitem unique_alt_dorms i ;;
  i <- np_argmax ref_dorm_sizes ;;
  max_ref_dorm <- getitem unique_ref_dorms i ;;
  i <- np_argmin ref_dorm_sizes ;;
  (* line 88 assigns [self.min_alt_dorm] again *)
  min_alt_dorm <- getitem unique_ref_dorms i ;;
  let dorm_idx :=
    foldl (λ acc '(i, dorm), dict_set dorm i acc) []
          (enumerate (scalars unique_dorms)) in
  let '(num_studies, study_sizes, unique_study_id) :=
    match study_id with
    | None => (num_obs, replicate num_obs 1, None)
    | Some ids =>
        let '(n, c, u) := array_structure ids in (n, c, Some u)
    end in
  sort_by_study_id
    (mkCWData obs obs_se alt_dorms ref_dorms covs study_id
       num_obs num_covs
       num_dorms dorm_sizes unique_dorms
       num_alt_dorms alt_dorm_sizes unique_alt_dorms
       num_ref_dorms ref_dorm_sizes unique_ref_dorms
       max_dorm min_dorm max_alt_dorm min_alt_dorm max_ref_dorm dorm_idx
       num_studies study_sizes unique_study_id).
End CWData.

(** ["%i" % n] for a count: its decimal digits. *)
Definition str_of_count (n : nat) : string :=
  DecimalString.NilEmpty.string_of_uint (Nat.to_uint n).

(** The line feed. *)
Definition newline : string := String "010"%char EmptyString.

(** [CWData.__repr__] *)
Definition __repr__ (self : CWData) : string :=
  let dimension_summary :=
    [ "number of observations: " +:+ str_of_count (num_obs self);
      "number of covariates  : " +:+ str_of_count (num_covs self);
      "number of defs/methods: " +:+ str_of_count (num_dorms self);
      "number of studies     : " +:+ str_of_count (num_studies self) ] in
  String.concat newline dimension_summary.

(** ** Sorts that [np.argsort] may be *)

#[global] Instance Qle_dec : RelDecision Qle.
Proof. intros x y. unfold Qle. apply _. Defined.
#[global] Instance Qlt_dec : RelDecision Qlt.
Proof. intros x y. unfold Qlt. apply _. Defined.

Definition str_le (s t : string) : Prop := String.leb s t = true.
#[global] Instance str_le_dec : RelDecision str_le.
Proof. intros s t. unfold str_le. apply _. Defined.

(** Keys in ascending order, equal keys in their original order. *)
Definition key_le {A} (le : relation A) : relation (nat * A) :=
  λ p q, le p.2 q.2.

#[global] Instance key_le_dec {A} (le : relation A) `{!RelDecision le} :
  RelDecision (key_le le).
Proof. intros p q. unfold key_le. apply _. Defined.

Definition stable_argsort (a : ndarray) : list nat :=
  match a with
  | NumArray xs => (merge_sort (key_le Qle) (enumerate xs)).*1
  | StrArray xs => (merge_sort (key_le str_le) (enumerate xs)).*1
  end.

(** *** The vectorised sort

    On x86 processors with AVX2 or AVX-512, numpy's default [kind] sorts
    64-bit keys with a vectorised quicksort on lanes of keys and of their
    positions.  An array that fits one vector is padded with the greatest
    value of the type and goes through a fixed network of compare-exchange
    steps.  A step moves a position only when the key of its lane changes:
    equal keys are never exchanged with each other, but an exchange can carry
    a key across its equals.  Up to four keys the networks of the two vector
    widths take the same steps, which are these. *)

(** A lane holds a key, or the padding. *)
Definition lane : Type := option Q.

Definition lane_le (a b : lane) : bool :=
  match a, b with
  | Some x, Some y => bool_decide (x <= y)%Q
  | _, None => true
  | None, Some _ => false
  end.

Definition lane_min (a b : lane) : lane := if lane_le a b then a else b.
Definition lane_max (a b : lane) : lane := if lane_le b a then a else b.
Definition lane_eq (a b : lane) : bool := lane_le a b && lane_le b a.

(** [mask_mov x k y]: the lanes of [y] where the mask is set, of [x]
    elsewhere. *)
Definition mask_mov {A} (x : list A) (k : list bool) (y : list A) : list A :=
  zip_with (λ m xy, if m : bool then xy.2 else xy.1) k (zip x y).

Definition permutexvar {A} (idx : list nat) (v : list A) : list A :=
  omap (λ i, v !! i) idx.

(** One step: every lane is compared with the lane [perm] pairs it with and
    takes the greater key where the mask is set, the smaller elsewhere; it
    keeps its position if it keeps its key. *)
Definition cmp_merge (perm : list nat) (k : list bool)
    (kv : list lane * list nat) : list lane * list nat :=
  let in1 := kv.1 in
  let in2 := permutexvar perm in1 in
  let indexes1 := kv.2 in
  let indexes2 := permutexvar perm indexes1 in
  let tmp_keys :=
    mask_mov (zip_with lane_min in1 in2) k (zip_with lane_max in1 in2) in
  (tmp_keys, mask_mov indexes2 (zip_with lane_eq tmp_keys in1) indexes1).

(** The network on four lanes: neighbours, then the lanes in reverse, then
    neighbours again. *)
Definition sort_vec (kv : list lane * list nat) : list lane * list nat :=
  cmp_merge [1; 0; 3; 2] [false; true; false; true]
    (cmp_merge [3; 2; 1; 0] [false; false; true; true]
       (cmp_merge [1; 0; 3; 2] [false; true; false; true] kv)).

(** At most four keys: load them with their positions, pad, sort, store. *)
Definition vec_argsort (xs : list Q) : list nat :=
  let n := length xs in
  let key := (Some <$> xs) ++ replicate (4 - n) None in
  let arg := seq 0 n ++ replicate (4 - n) 0 in
  firstn n (sort_vec (key, arg)).2.

(** Longer arrays are partitioned and merged in ways that depend on the
    vector width; the model leaves them out and sorts them stably, as it
    does arrays of strings ([check] admits none as [study_id]). *)
Definition simd_argsort (a : ndarray) : list nat :=
  match a with
  | NumArray xs =>
      if decide (length xs ≤ 4) then vec_argsort xs else stable_argsort a
  | StrArray _ => stable_argsort a
  end.

Definition no_str : Q → string := λ _, "".


(** ** Definitions for the statements *)

(** *** Validation *)

(** What [check] tests on one covariate. *)
Definition cov_ok (d : pydict) (n : nat) (k : pykey) : bool :=
  is_str k &&
  match dict_get k d with
  | Some x => is_numerical_array x n
  | None => false
  end.

Definition positive_se (se : ndarray) : bool :=
  match se with
  | NumArray xs => forallb gt0 xs
  | StrArray _ => false
  end.

(** The conjunction of the assertions of [check], for the covariates [d]. *)
Definition valid_inputs (obs se alt ref : ndarray) (d : pydict)
    (sid : option ndarray) (n : nat) : bool :=
  is_numerical_array obs n && is_numerical_array se n && positive_se se &&
  bool_decide (size alt = n) && bool_decide (size ref = n) &&
  forallb (cov_ok d n) (dict_keys d) &&
  match sid with
  | Some ids => is_numerical_array ids n
  | None => true
  end.

(** What the assertions of [check] say, apart from the count of the
    covariates: numeric sequences of [n] entries, positive standard errors,
    [n] definitions of each kind, covariates with string names. *)
Definition shapes_ok (o se alt ref : ndarray) (d : pydict)
    (sid : option ndarray) (n : nat) : Prop :=
  (∃ xs, o = NumArray xs ∧ length xs = n) ∧
  (∃ ys, se = NumArray ys ∧ length ys = n ∧ Forall (λ y, (0 < y)%Q) ys) ∧
  size alt = n ∧ size ref = n ∧
  (∀ k x, (k, x) ∈ d →
          (∃ s, k = KStr s) ∧ ∃ zs, x = NumArray zs ∧ length zs = n) ∧
  match sid with
  | Some ids => ∃ zs, ids = NumArray zs ∧ length zs = n
  | None => True
  end.

(** *** The covariates *)

(** Dicts have distinct keys. *)
Definition wf_world (w : world) : Prop :=
  ∀ l d, heap w !! l = Some d → NoDup (dict_keys d).

(** The dict the constructor starts from, and the reference it keeps. *)
Definition covs_dict (covs : option loc) (w : world) : option pydict :=
  match covs with
  | None => Some []
  | Some l => heap w !! l
  end.

Definition covs_ref (covs : option loc) (w : world) : loc :=
  match covs with
  | None => fresh (dom (heap w))
  | Some l => l
  end.

(** The covariates after the intercept policy, and the store then. *)
Definition prepared_dict (d0 : pydict) (add_intercept : bool) (n : nat)
    : pydict :=
  if add_intercept || dict_is_empty d0
  then dict_set (KStr "intercept") (np_ones n) d0
  else d0.

Definition prepared_world (l : loc) (d0 : pydict) (add_intercept : bool)
    (n : nat) (w : world) : world :=
  World (<[l := prepared_dict d0 add_intercept n]> (heap w))
        (if dict_is_empty d0 && negb add_intercept
         then warned w ++ [intercept_warning] else warned w).

(** *** The structure *)

(** The label at the first extremum of the counts, or the exception that
    [np.argmax]/[np.argmin] and the indexing raise. *)
Definition pick (arg : list nat → option nat) (sizes : list nat)
    (unique : ndarray) : result scalar :=
  match arg sizes with
  | None => Raise ValueError
  | Some i =>
      match scalars unique !! i with
      | Some s => Ok s
      | None => Raise IndexError
      end
  end.

(** The object that [__init__] hands to [sort_by_study_id]. *)
Definition unsorted_object (str_of_num : Q → string)
    (obs se alt ref : ndarray) (l : loc)
    (sid : option ndarray) (ncovs : nat) : result CWData :=
  let '(num_dorms, dorm_sizes, unique_dorms) :=
    array_structure (np_hstack str_of_num alt ref) in
  let '(num_alt_dorms, alt_dorm_sizes, unique_alt_dorms) :=
    array_structure alt in
  let '(num_ref_dorms, ref_dorm_sizes, unique_ref_dorms) :=
    array_structure ref in
  match pick argmax dorm_sizes unique_dorms with
  | Raise e => Raise e
  | Ok max_dorm =>
  match pick argmin dorm_sizes unique_dorms with
  | Raise e => Raise e
  | Ok min_dorm =>
  match pick argmax alt_dorm_sizes unique_alt_dorms with
  | Raise e => Raise e
  | Ok max_alt_dorm =>
  match pick argmin alt_dorm_sizes unique_alt_dorms with
  | Raise e => Raise e
  | Ok _ =>
  match pick argmax ref_dorm_sizes unique_ref_dorms with
  | Raise e => Raise e
  | Ok max_ref_dorm =>
  match pick argmin ref_dorm_sizes unique_ref_dorms with
  | Raise e => Raise e
  | Ok min_alt_dorm =>
    let dorm_idx :=
      foldl (λ acc '(i, dorm), dict_set dorm i acc) []
            (enumerate (scalars unique_dorms)) in
    let '(num_studies, study_sizes, unique_study_id) :=
      match sid with
      | None => (size obs, replicate (size obs) 1, None)
      | Some ids =>
          let '(n, c, u) := array_structure ids in (n, c, Some u)
      end in
    Ok (mkCWData obs se alt ref l sid (size obs) ncovs
          num_dorms dorm_sizes unique_dorms
          num_alt_dorms alt_dorm_sizes unique_alt_dorms
          num_ref_dorms ref_dorm_sizes unique_ref_dorms
          max_dorm min_dorm max_alt_dorm min_alt_dorm max_ref_dorm
          dorm_idx num_studies study_sizes unique_study_id)
  end end end end end end.

(** The attributes that later steps do not touch. *)
Definition same_structure (d u : CWData) : Prop :=
  covs d = covs u ∧ num_obs d = num_obs u ∧ num_covs d = num_covs u ∧
  num_dorms d = num_dorms u ∧ dorm_sizes d = dorm_sizes u ∧
  unique_dorms d = unique_dorms u ∧
  num_alt_dorms d = num_alt_dorms u ∧ alt_dorm_sizes d = alt_dorm_sizes u ∧
  unique_alt_dorms d = unique_alt_dorms u ∧
  num_ref_dorms d = num_ref_dorms u ∧ ref_dorm_sizes d = ref_dorm_sizes u ∧
  unique_ref_dorms d = unique_ref_dorms u ∧
  max_dorm d = max_dorm u ∧ min_dorm d = min_dorm u ∧
  max_alt_dorm d = max_alt_dorm u ∧ min_alt_dorm d = min_alt_dorm u ∧
  max_ref_dorm d = max_ref_dorm u ∧ dorm_idx d = dorm_idx u ∧
  num_studies d = num_studies u ∧ study_sizes d = study_sizes u ∧
  unique_study_id d = unique_study_id u.

(** *** Extremes *)

(** Position [i] is the first one at which [sizes] is greatest (least). *)
Definition first_max (sizes : list nat) (i : nat) : Prop :=
  ∃ m, sizes !! i = Some m ∧
       (∀ j x, sizes !! j = Some x → x ≤ m) ∧
       (∀ j x, j < i → sizes !! j = Some x → x < m).

Definition first_min (sizes : list nat) (i : nat) : Prop :=
  ∃ m, sizes !! i = Some m ∧
       (∀ j x, sizes !! j = Some x → m ≤ x) ∧
       (∀ j x, j < i → sizes !! j = Some x → m < x).

(** [s] is the label of [unique] at the first greatest (least) count. *)
Definition largest_group (sizes : list nat) (unique : ndarray) (s : scalar)
    : Prop :=
  ∃ i, first_max sizes i ∧ scalars unique !! i = Some s.

Definition smallest_group (sizes : list nat) (unique : ndarray) (s : scalar)
    : Prop :=
  ∃ i, first_min sizes i ∧ scalars unique !! i = Some s.

(** *** The sort *)

(** [np.argsort(a)] returns the positions of [a] in an order that sorts it:
    a permutation of [0 .. a.size - 1], along which the entries are in
    non-decreasing order.  The default [kind] is not a stable sort: the order
    of equal entries is not part of the promise. *)
Definition argsort_permutes (argsort : ndarray → list nat) : Prop :=
  ∀ a, argsort a ≡ₚ seq 0 (size a).

Definition argsort_sorts (argsort : ndarray → list nat) : Prop :=
  ∀ xs ys, gather xs (argsort (NumArray xs)) = Some ys → Sorted Qle ys.

(** The dict whose arrays are all indexed by [idx]. *)
Definition permute_dict (idx : list nat) (d : pydict) : option pydict :=
  mapM (λ kx, (λ x', (kx.1, x')) <$> index_array kx.2 idx) d.

(** One turn of the loop of [sort_by_study_id]. *)
Definition sort_covariate (l : loc) (idx : list nat) (cov_name : pykey)
    : M unit :=
  d <- read_dict l ;;
  x <- or_raise KeyError (dict_get cov_name d) ;;
  x' <- take x idx ;;
  write_dict l (dict_set cov_name x' d).

(** The object [sort_by_study_id] leaves when the study ids are [ids]. *)
Definition sorted_object (argsort : ndarray → list nat) (self : CWData)
    (ids : ndarray) : option CWData :=
  let sort_id := argsort ids in
  study_id' ← index_array ids sort_id;
  obs' ← index_array (obs self) sort_id;
  obs_se' ← index_array (obs_se self) sort_id;
  alt_dorms' ← index_array (alt_dorms self) sort_id;
  ref_dorms' ← index_array (ref_dorms self) sort_id;
  Some (mkCWData obs' obs_se' alt_dorms' ref_dorms' (covs self)
          (Some study_id') (num_obs self) (num_covs self)
          (num_dorms self) (dorm_sizes self) (unique_dorms self)
          (num_alt_dorms self) (alt_dorm_sizes self)
          (unique_alt_dorms self)
          (num_ref_dorms self) (ref_dorm_sizes self)
          (unique_ref_dorms self)
          (max_dorm self) (min_dorm self) (max_alt_dorm self)
          (min_alt_dorm self) (max_ref_dorm self) (dorm_idx self)
          (num_studies self) (study_sizes self) (unique_study_id self)).

(** *** Reading a summary *)

(** The lines of a text, as [text.split("\n")] gives them. *)
Fixpoint lines (s : string) : list string :=
  match s with
  | EmptyString => [EmptyString]
  | String c s' =>
      if Ascii.eqb c "010"%char then EmptyString :: lines s'
      else match lines s' with
           | l :: ls => String c l :: ls
           | [] => [String c EmptyString]
           end
  end.

Fixpoint strip_prefix (p s : string) : option string :=
  match p, s with
  | EmptyString, _ => Some s
  | String a p', String b s' =>
      if Ascii.eqb a b then strip_prefix p' s' else None
  | String _ _, EmptyString => None
  end.

(** The count that a line reports under a label. *)
Definition read_count (label line : string) : option nat :=
  digits ← strip_prefix label line;
  Nat.of_uint <$> DecimalString.NilEmpty.uint_of_string digits.

(** *** Records *)

(** The observations as records: the parallel sequences, then the values of
    the covariates; record [i] holds entry [i] of each. *)
Definition columns (o se alt ref ids : ndarray) (d : pydict) : list ndarray :=
  [o; se; alt; ref; ids] ++ d.*2.

Definition row (cols : list ndarray) (i : nat) : option (list scalar) :=
  mapM (λ a, scalars a !! i) cols.

Definition rows (cols : list ndarray) (n : nat) : option (list (list scalar)) :=
  mapM (row cols) (seq 0 n).

Definition empty_world : world := World ∅ [].

(** * Properties of the embedding *)

(** ** Running computations *)

Lemma bind_Ok {A B} (m : M A) (k : A → M B) w a w1 :
  m w = (Ok a, w1) → bind m k w = k a w1.
Proof. unfold bind. by intros ->. Qed.

Lemma read_dict_Ok l w d :
  heap w !! l = Some d → read_dict l w = (Ok d, w).
Proof. unfold read_dict. by intros ->. Qed.

(** ** Validation *)

Lemma dict_get_keys {K V} `{EqDecision K} (d : list (K * V)) k :
  k ∈ dict_keys d → is_Some (dict_get k d).
Proof.
  induction d as [|[k' v] d IH]; cbn; [by intros ?%elem_of_nil|].
  intros Hk. case_decide; [done|].
  apply elem_of_cons in Hk as [?|?]; [done | by apply IH].
Qed.

Lemma check_covariates l d n w ks :
  heap w !! l = Some d →
  Forall (λ k, is_Some (dict_get k d)) ks →
  for_each ks (λ cov_name,
      py_assert (is_str cov_name) ;;;
      d <- read_dict l ;;
      x <- or_raise KeyError (dict_get cov_name d) ;;
      py_assert (is_numerical_array x n)) w
  = (if forallb (cov_ok d n) ks then Ok () else Raise AssertionError, w).
Proof.
  intros Hd. induction 1 as [|k ks [x Hk] _ IH]; [done|].
  cbn [for_each forallb]. unfold cov_ok at 1. rewrite Hk.
  destruct (is_str k); [|done].
  unfold bind at 1 2 3. cbn. rewrite (read_dict_Ok _ _ _ Hd). cbn.
  rewrite Hk. cbn. destruct (is_numerical_array x n); cbn; [apply IH | done].
Qed.

Lemma check_spec obs se alt ref l sid n d w :
  heap w !! l = Some d →
  check obs se alt ref l sid n (length d) w
  = (if valid_inputs obs se alt ref d sid n then Ok () else Raise AssertionError,
     w).
Proof.
  intros Hd. unfold check, valid_inputs.
  destruct (is_numerical_array obs n); [|done].
  destruct (is_numerical_array se n) eqn:Hse; [|done].
  destruct se as [xs|xs]; [|done]. cbn [positive_se andb].
  unfold bind at 1 2 3. cbn.
  destruct (forallb gt0 xs); [|done]. cbn.
  destruct (bool_decide (size alt = n)); [|done].
  destruct (bool_decide (size ref = n)); [|done].
  unfold bind at 1 2 3. cbn. rewrite (read_dict_Ok _ _ _ Hd). cbn.
  rewrite bool_decide_eq_true_2 by done. unfold bind at 1 2. cbn.
  rewrite check_covariates with (d := d); [|done|].
  - destruct (forallb (cov_ok d n) (dict_keys d)); [|done].
    cbn. by destruct sid as [ids|]; [destruct (is_numerical_array ids n)|].
  - apply Forall_forall. intros k. apply dict_get_keys.
Qed.

(** ** The sort *)

Lemma dict_get_app_fresh {K V} `{EqDecision K} (d1 d2 : list (K * V)) k :
  k ∉ dict_keys d1 → dict_get k (d1 ++ d2) = dict_get k d2.
Proof.
  induction d1 as [|[k' v] d1 IH]; cbn; [done|].
  intros Hk. apply not_elem_of_cons in Hk as [? ?].
  case_decide; [done | by apply IH].
Qed.

Lemma dict_set_app_fresh {K V} `{EqDecision K} (d1 d2 : list (K * V)) k v :
  k ∉ dict_keys d1 → dict_set k v (d1 ++ d2) = d1 ++ dict_set k v d2.
Proof.
  induction d1 as [|[k' v'] d1 IH]; cbn; [done|].
  intros Hk. apply not_elem_of_cons in Hk as [? ?].
  case_decide; [done | by rewrite IH].
Qed.

Lemma world_insert_id w l d :
  heap w !! l = Some d → World (<[l := d]> (heap w)) (warned w) = w.
Proof. destruct w as [h ws]; cbn. intros Hd. by rewrite insert_id. Qed.

Lemma sort_covariate_spec l idx k d x w :
  heap w !! l = Some d → dict_get k d = Some x →
  sort_covariate l idx k w =
    match index_array x idx with
    | Some x' =>
        (Ok (), World (<[l := dict_set k x' d]> (heap w)) (warned w))
    | None => (Raise IndexError, w)
    end.
Proof.
  intros Hd Hk. unfold sort_covariate.
  rewrite (bind_Ok _ _ _ _ _ (read_dict_Ok _ _ _ Hd)). rewrite Hk.
  cbv [bind or_raise ret take raise write_dict].
  by destruct (index_array x idx).
Qed.

Lemma sort_covariates l idx d2 : ∀ d1 w,
  NoDup (dict_keys (d1 ++ d2)) →
  heap w !! l = Some (d1 ++ d2) →
  ∃ w', for_each (dict_keys d2) (sort_covariate l idx) w
        = (match permute_dict idx d2 with
           | Some _ => Ok ()
           | None => Raise IndexError
           end, w') ∧
        ∀ d2', permute_dict idx d2 = Some d2' →
               w' = World (<[l := d1 ++ d2']> (heap w)) (warned w).
Proof.
  induction d2 as [|[k x] d2 IH]; intros d1 w Hnd Hd.
  - exists w. split; [reflexivity|]. intros ? [= <-].
    rewrite app_nil_r in *. by rewrite world_insert_id.
  - assert (k ∉ dict_keys d1) as Hk.
    { unfold dict_keys in *. rewrite fmap_app in Hnd.
      apply NoDup_app in Hnd as (_ & Hnd & _). intros Hin.
      apply (Hnd _ Hin). cbn. left. }
    unfold permute_dict in *. cbn [mapM dict_keys fmap list_fmap for_each].
    unfold bind. erewrite sort_covariate_spec; [|done|].
    2:{ rewrite dict_get_app_fresh by done. cbn. by rewrite decide_True. }
    cbn [fst snd].
    destruct (index_array x idx) as [x'|] eqn:Hx; cbn;
      [|by exists w; split; [|intros ? [=]]].
    rewrite dict_set_app_fresh by done. cbn [dict_set].
    rewrite decide_True by done.
    set (w1 := World (<[l:=d1 ++ (k, x') :: d2]> (heap w)) (warned w)).
    destruct (IH (d1 ++ [(k, x')]) w1) as (w' & Hrun & Hw').
    { unfold dict_keys in *. by rewrite <- (assoc_L (++)), fmap_app in *. }
    { rewrite <- (assoc_L (++)). apply lookup_insert_eq. }
    exists w'. split.
    + unfold dict_keys in Hrun. rewrite Hrun. by destruct (mapM _ d2).
    + intros d2' Hd2'. destruct (mapM _ d2) as [d2''|]; [|done].
      cbn in Hd2'. injection Hd2' as <-.
      rewrite (Hw' d2'') by done. subst w1. cbn.
      by rewrite insert_insert_eq, <- (assoc_L (++)).
Qed.

(** ** The group structure *)

Section structure_facts.
Context {A : Type} (cmp : A → A → comparison).

Lemma insert_unique_nonempty x l : insert_unique cmp x l ≠ [].
Proof. destruct l as [|y l]; cbn; [done|]. by destruct (cmp x y). Qed.

Lemma unique_sorted_nonempty xs : xs ≠ [] → unique_sorted cmp xs ≠ [].
Proof. destruct xs; [done|]. intros _. apply insert_unique_nonempty. Qed.

Lemma group_structure_lengths xs n c u :
  group_structure cmp xs = (n, c, u) →
  n = length u ∧ length c = length u ∧ (xs ≠ [] → u ≠ []).
Proof.
  unfold group_structure. intros [= <- <- <-].
  rewrite length_fmap. auto using unique_sorted_nonempty.
Qed.

(** When [cmp] decides a strict total order. *)
Hypothesis cmp_eq : ∀ x y, cmp x y = Eq ↔ x = y.
Hypothesis cmp_gt : ∀ x y, cmp x y = Gt → cmp y x = Lt.
Hypothesis cmp_trans : ∀ x y z, cmp x y = Lt → cmp y z = Lt → cmp x z = Lt.

Lemma elem_of_insert_unique x y l :
  y ∈ insert_unique cmp x l ↔ y = x ∨ y ∈ l.
Proof.
  induction l as [|z l IH]; cbn.
  - rewrite list_elem_of_singleton, elem_of_nil. tauto.
  - destruct (cmp x z) eqn:Hc.
    + apply cmp_eq in Hc as ->. rewrite elem_of_cons. tauto.
    + rewrite (elem_of_cons (z :: l)). tauto.
    + rewrite !elem_of_cons, IH. tauto.
Qed.

Lemma insert_unique_sorted x l :
  StronglySorted (cmp_lt cmp) l → StronglySorted (cmp_lt cmp) (insert_unique cmp x l).
Proof.
  induction 1 as [|z l Hl IH Hz]; cbn.
  - repeat constructor.
  - destruct (cmp x z) eqn:Hc.
    + by constructor.
    + constructor; [by constructor|]. constructor; [done|].
      eapply Forall_impl; [done|]. intros y Hy. by eapply cmp_trans.
    + constructor; [done|]. apply Forall_forall.
      intros y [->|Hy]%elem_of_insert_unique.
      * by apply cmp_gt.
      * by eapply Forall_forall in Hz.
Qed.

Lemma unique_sorted_sorted xs : StronglySorted (cmp_lt cmp) (unique_sorted cmp xs).
Proof.
  induction xs as [|x xs IH]; cbn; [constructor|].
  by apply insert_unique_sorted.
Qed.

Lemma elem_of_unique_sorted x xs : x ∈ unique_sorted cmp xs ↔ x ∈ xs.
Proof.
  induction xs as [|y xs IH]; cbn; [done|].
  rewrite elem_of_insert_unique, elem_of_cons, IH. done.
Qed.

Lemma cmp_lt_irrefl x : ¬ (cmp_lt cmp) x x.
Proof.
  unfold cmp_lt. intros Hx. assert (cmp x x = Eq) by by apply cmp_eq.
  congruence.
Qed.

Lemma unique_sorted_NoDup xs : NoDup (unique_sorted cmp xs).
Proof.
  induction (unique_sorted_sorted xs) as [|x l _ IH Hx]; constructor; [|done].
  intros Hin. eapply Forall_forall in Hx; [|done].
  by apply cmp_lt_irrefl in Hx.
Qed.

Lemma occurrences_count `{EqDecision A} u xs :
  occurrences cmp u xs = length (filter (u =.) xs).
Proof.
  induction xs as [|x xs IH]; [done|]. cbn [occurrences].
  rewrite filter_cons. destruct (cmp u x) eqn:Hc.
  - apply cmp_eq in Hc as ->. rewrite decide_True by done. cbn. by rewrite IH.
  - rewrite decide_False; [done|]. intros ->.
    by apply cmp_lt_irrefl in Hc.
  - rewrite decide_False; [done|]. intros ->.
    apply cmp_gt in Hc. by apply cmp_lt_irrefl in Hc.
Qed.
End structure_facts.

Lemma string_compare_eq s t : String.compare s t = Eq ↔ s = t.
Proof. apply OrderedTypeEx.String_as_OT.cmp_eq. Qed.

Lemma string_compare_gt s t : String.compare s t = Gt → String.compare t s = Lt.
Proof. intros Hc. rewrite String.compare_antisym, Hc. done. Qed.

Lemma string_compare_trans s t u :
  String.compare s t = Lt → String.compare t u = Lt → String.compare s u = Lt.
Proof.
  intros H1%OrderedTypeEx.String_as_OT.cmp_lt H2%OrderedTypeEx.String_as_OT.cmp_lt.
  apply OrderedTypeEx.String_as_OT.cmp_lt.
  by eapply OrderedTypeEx.String_as_OT.lt_trans.
Qed.

Lemma array_structure_lengths a n c u :
  array_structure a = (n, c, u) →
  n = size u ∧ length c = size u ∧ length (scalars u) = size u ∧
  (0 < size a → 0 < size u).
Proof.
  unfold array_structure.
  destruct a as [xs|xs];
    (destruct (group_structure _ xs) as [[n' c'] u'] eqn:Hg);
    intros [= <- <- <-];
    apply group_structure_lengths in Hg as (-> & -> & Hne);
    cbn; rewrite length_fmap; (split_and!; [done..|]);
    intros Hlen; (destruct u'; [|cbn; lia]); exfalso; (apply Hne; [|done]);
    intros ->; cbn in Hlen; lia.
Qed.

Lemma arg_extremum_bound better l : ∀ bi b i,
  bi < i → arg_extremum better bi b i l < i + length l.
Proof.
  induction l as [|x l IH]; intros bi b i Hi; cbn; [lia|].
  destruct (better x b).
  - specialize (IH i x (S i)). lia.
  - specialize (IH bi b (S i)). lia.
Qed.

Lemma argmax_bound l i : argmax l = Some i → i < length l.
Proof.
  destruct l as [|x l]; [done|]. intros [= <-].
  apply (arg_extremum_bound _ l 0 x 1). lia.
Qed.

Lemma argmin_bound l i : argmin l = Some i → i < length l.
Proof.
  destruct l as [|x l]; [done|]. intros [= <-].
  apply (arg_extremum_bound _ l 0 x 1). lia.
Qed.

(** ** Indexing by an array of positions *)

Lemma gather_length {A} (xs : list A) idx ys :
  gather xs idx = Some ys → length ys = length idx.
Proof. intros Hg. symmetry. by eapply length_mapM. Qed.

Lemma gather_lookup {A} (xs : list A) idx ys i j :
  gather xs idx = Some ys → idx !! i = Some j → ys !! i = xs !! j.
Proof.
  intros Hg%mapM_Some_1 Hi.
  destruct (Forall2_lookup_l _ _ _ _ _ Hg Hi) as (y & -> & Hy). done.
Qed.

Lemma gather_elem_of {A} (xs : list A) idx ys y :
  gather xs idx = Some ys → y ∈ ys → y ∈ xs.
Proof.
  intros Hg%mapM_Some_1 (i & Hi)%list_elem_of_lookup.
  destruct (Forall2_lookup_r _ _ _ _ _ Hg Hi) as (j & _ & Hj).
  by eapply list_elem_of_lookup_2.
Qed.

Lemma gather_is_Some {A} (xs : list A) idx :
  idx ≡ₚ seq 0 (length xs) → is_Some (gather xs idx).
Proof.
  intros Hp. apply mapM_is_Some_2, Forall_forall. intros i Hi.
  rewrite Hp in Hi. apply elem_of_seq in Hi. apply lookup_lt_is_Some. lia.
Qed.

Lemma gather_seq {A} (pre xs : list A) :
  gather (pre ++ xs) (seq (length pre) (length xs)) = Some xs.
Proof.
  revert pre. induction xs as [|x xs IH]; intros pre; [done|].
  unfold gather in *. cbn. rewrite lookup_app_r, Nat.sub_diag by done. cbn.
  specialize (IH (pre ++ [x])).
  rewrite <- (assoc_L (++)), length_app, Nat.add_1_r in IH. cbn in IH.
  by rewrite IH.
Qed.

Lemma gather_Permutation {A} (xs : list A) idx idx' :
  idx ≡ₚ idx' → ∀ ys, gather xs idx = Some ys →
  ∃ ys', gather xs idx' = Some ys' ∧ ys ≡ₚ ys'.
Proof.
  unfold gather. induction 1 as [|i idx idx' _ IH|i j idx|idx1 idx2 idx3 _ IH1 _ IH2];
    intros ys Hys.
  - exists ys. done.
  - cbn in *. destruct (xs !! i) as [x|]; [|done]. cbn in *.
    destruct (mapM _ idx) as [zs|]; [|done]. cbn in *.
    injection Hys as <-. destruct (IH zs eq_refl) as (zs' & -> & ?).
    exists (x :: zs'). by split; [|constructor].
  - cbn in *. destruct (xs !! j) as [y|]; [|done]. cbn in *.
    destruct (xs !! i) as [x|]; [|done]. cbn in *.
    destruct (mapM _ idx) as [zs|]; [|done]. cbn in *.
    injection Hys as <-. exists (x :: y :: zs). by split; [|constructor].
  - destruct (IH1 ys Hys) as (ys1 & Hys1 & ?).
    destruct (IH2 ys1 Hys1) as (ys2 & Hys2 & ?).
    exists ys2. split; [done|]. by etrans.
Qed.

Lemma gather_permutes {A} (xs : list A) idx ys :
  idx ≡ₚ seq 0 (length xs) → gather xs idx = Some ys → ys ≡ₚ xs.
Proof.
  intros Hp Hys. destruct (gather_Permutation xs _ _ Hp ys Hys) as (ys' & Hg & ?).
  pose proof (gather_seq [] xs) as Hs. cbn in Hs. congruence.
Qed.

Lemma size_scalars a : length (scalars a) = size a.
Proof. destruct a; cbn; by rewrite length_fmap. Qed.

Lemma index_array_size a idx a' :
  index_array a idx = Some a' → size a' = length idx.
Proof.
  destruct a as [xs|xs]; cbn; destruct (gather xs idx) eqn:Hg; intros [= <-];
    by eapply gather_length.
Qed.

Lemma index_array_is_Some a idx :
  idx ≡ₚ seq 0 (size a) → is_Some (index_array a idx).
Proof.
  destruct a as [xs|xs]; cbn; intros [ys ->]%gather_is_Some; by eexists.
Qed.

Lemma index_array_scalars a idx a' :
  index_array a idx = Some a' → gather (scalars a) idx = Some (scalars a').
Proof.
  destruct a as [xs|xs]; cbn; destruct (gather xs idx) as [ys|] eqn:Hg;
    intros [= <-]; cbn; apply mapM_Some_2; apply mapM_Some_1 in Hg;
    (induction Hg as [|i y idx ys Hi _ IH]; constructor; [|done]);
    by rewrite list_lookup_fmap, Hi.
Qed.

(** ** Dicts *)

Section dict_facts.
Context {K V : Type} `{EqDecision K}.
Implicit Types d : list (K * V).

Lemma dict_get_set_eq d k v : dict_get k (dict_set k v d) = Some v.
Proof.
  induction d as [|[k' v'] d IH]; cbn.
  - by rewrite decide_True.
  - case_decide; cbn; [by rewrite decide_True | by rewrite decide_False].
Qed.

Lemma dict_get_set_ne d k k' v :
  k ≠ k' → dict_get k' (dict_set k v d) = dict_get k' d.
Proof.
  intros Hne. induction d as [|[k'' v''] d IH]; cbn.
  - by rewrite decide_False.
  - case_decide; cbn; [subst; by rewrite !decide_False|].
    case_decide; [done | apply IH].
Qed.

Lemma dict_keys_set d k v :
  dict_keys (dict_set k v d)
  = if decide (k ∈ dict_keys d) then dict_keys d else dict_keys d ++ [k].
Proof.
  induction d as [|[k' v'] d IH]; cbn.
  - rewrite decide_False; [done | apply not_elem_of_nil].
  - destruct (decide (k = k')) as [->|Hk]; cbn.
    + rewrite decide_True; [done | left].
    + fold (dict_keys d) in *. fold (dict_keys (dict_set k v d)).
      rewrite IH. destruct (decide (k ∈ dict_keys d)) as [Hin|Hin].
      * rewrite decide_True; [done | by right].
      * rewrite decide_False; [done|]. by intros [?|?]%elem_of_cons.
Qed.

Lemma dict_set_NoDup d k v :
  NoDup (dict_keys d) → NoDup (dict_keys (dict_set k v d)).
Proof.
  intros Hnd. rewrite dict_keys_set. case_decide; [done|].
  apply NoDup_app. split_and!; [done| |apply NoDup_singleton].
  intros k' Hk' ->%list_elem_of_singleton. done.
Qed.

Lemma dict_set_length d k v :
  length (dict_set k v d)
  = if decide (k ∈ dict_keys d) then length d else S (length d).
Proof.
  rewrite <- !(length_fmap fst). fold (dict_keys d).
  fold (dict_keys (dict_set k v d)). rewrite dict_keys_set.
  case_decide; [done|]. rewrite length_app. cbn. lia.
Qed.

Lemma dict_get_elem_of d k v :
  NoDup (dict_keys d) → (k, v) ∈ d → dict_get k d = Some v.
Proof.
  induction d as [|[k' v'] d IH]; cbn; [by intros _ ?%elem_of_nil|].
  intros [Hk' Hnd]%NoDup_cons [[= -> ->]|Hin]%elem_of_cons.
  - by rewrite decide_True.
  - rewrite decide_False; [by apply IH|]. intros ->. apply Hk'.
    apply list_elem_of_fmap. by exists (k', v).
Qed.

Lemma dict_get_Some_elem_of d k v : dict_get k d = Some v → (k, v) ∈ d.
Proof.
  induction d as [|[k' v'] d IH]; cbn; [done|].
  case_decide; [intros [= ->]; subst; left | right; auto].
Qed.
End dict_facts.

Lemma permute_dict_keys idx d d' :
  permute_dict idx d = Some d' → dict_keys d' = dict_keys d.
Proof.
  unfold permute_dict. intros Hd%mapM_Some_1.
  induction Hd as [|[k x] [k' x'] d d' Hx _ IH]; [done|]. cbn in *.
  destruct (index_array x idx); [|done]. cbn in Hx. injection Hx as <- <-.
  unfold dict_keys in IH. by rewrite IH.
Qed.

Lemma permute_dict_get idx d d' k :
  permute_dict idx d = Some d' →
  dict_get k d' = dict_get k d ≫= λ x, index_array x idx.
Proof.
  unfold permute_dict. intros Hd%mapM_Some_1.
  induction Hd as [|[k1 x] [k1' x'] d d' Hx _ IH]; [done|]. cbn in *.
  destruct (index_array x idx) eqn:Hi; [|done]. cbn in Hx.
  injection Hx as <- <-. by case_decide.
Qed.

Lemma permute_dict_is_Some idx d n :
  idx ≡ₚ seq 0 n → Forall (λ kx, size kx.2 = n) d →
  is_Some (permute_dict idx d).
Proof.
  intros Hp Hd. apply mapM_is_Some_2. eapply Forall_impl; [done|].
  intros [k x] <-. cbn.
  destruct (index_array_is_Some x idx Hp) as [x' ->]. by eexists.
Qed.

Lemma is_numerical_array_size x n : is_numerical_array x n = true → size x = n.
Proof. destruct x; cbn; [|done]. by intros ?%bool_decide_eq_true. Qed.

Lemma is_numerical_array_NumArray x n :
  is_numerical_array x n = true → ∃ xs, x = NumArray xs ∧ length xs = n.
Proof. destruct x; cbn; [|done]. intros ?%bool_decide_eq_true. eauto. Qed.

Lemma gt0_spec x : gt0 x = true ↔ (0 < x)%Q.
Proof.
  unfold gt0. rewrite negb_true_iff, <- not_true_iff_false, Qle_bool_iff.
  split; [apply Qnot_le_lt | apply Qlt_not_le].
Qed.

Lemma valid_inputs_inv obs se alt ref d sid n :
  valid_inputs obs se alt ref d sid n = true →
  (∃ xs, obs = NumArray xs ∧ length xs = n) ∧
  (∃ ys, se = NumArray ys ∧ length ys = n ∧ Forall (λ y, (0 < y)%Q) ys) ∧
  size alt = n ∧ size ref = n ∧
  (∀ k, k ∈ dict_keys d →
        is_str k = true ∧
        ∃ x, dict_get k d = Some x ∧ is_numerical_array x n = true) ∧
  match sid with
  | Some ids => ∃ zs, ids = NumArray zs ∧ length zs = n
  | None => True
  end.
Proof.
  unfold valid_inputs. rewrite !andb_true_iff, !bool_decide_eq_true.
  intros ((((((Hobs & Hse) & Hpos) & Halt) & Href) & Hcov) & Hsid).
  split_and!; [by apply is_numerical_array_NumArray| |done|done| |].
  - apply is_numerical_array_NumArray in Hse as (ys & -> & ?).
    exists ys. split_and!; [done..|]. cbn in Hpos.
    apply Forall_forall. intros y Hy. apply gt0_spec.
    rewrite forallb_forall in Hpos. by apply Hpos, list_elem_of_In.
  - intros k Hk. rewrite forallb_forall in Hcov.
    apply list_elem_of_In, Hcov in Hk. unfold cov_ok in Hk.
    apply andb_true_iff in Hk as [? Hk]. split; [done|].
    destruct (dict_get k d) as [x|]; [eauto | done].
  - destruct sid as [ids|]; [by apply is_numerical_array_NumArray | done].
Qed.

Lemma valid_inputs_covariates obs se alt ref d sid n :
  valid_inputs obs se alt ref d sid n = true → NoDup (dict_keys d) →
  Forall (λ kx, size kx.2 = n) d.
Proof.
  intros (_ & _ & _ & _ & Hcov & _)%valid_inputs_inv Hnd.
  apply Forall_forall. intros [k x] Hkx.
  destruct (Hcov k) as (_ & x' & Hget & Hx').
  { apply list_elem_of_fmap. by exists (k, x). }
  rewrite (dict_get_elem_of _ _ _ Hnd Hkx) in Hget. injection Hget as <-.
  by apply is_numerical_array_size.
Qed.

(** ** What numpy promises of [np.argsort], and two sorts that keep it *)

Section CWData_facts.
Variable argsort : ndarray → list nat.
Variable str_of_num : Q → string.

Lemma sort_by_study_id_None self w :
  study_id self = None → sort_by_study_id argsort self w = (Ok self, w).
Proof. unfold sort_by_study_id. by intros ->. Qed.

Lemma sort_by_study_id_Some self ids d w :
  study_id self = Some ids →
  heap w !! covs self = Some d →
  NoDup (dict_keys d) →
  ∃ w', sort_by_study_id argsort self w
        = (match sorted_object argsort self ids, permute_dict (argsort ids) d with
           | Some s, Some _ => Ok s
           | _, _ => Raise IndexError
           end, w') ∧
        ∀ d', permute_dict (argsort ids) d = Some d' →
              is_Some (sorted_object argsort self ids) →
              w' = World (<[covs self := d']> (heap w)) (warned w).
Proof.
  intros Hid Hd Hnd. unfold sort_by_study_id, sorted_object. rewrite Hid.
  unfold take.
  destruct (index_array ids _) as [ids'|]; cbn;
    [|by exists w; split; [|intros ? _ [? [=]]]].
  destruct (index_array (obs self) _) as [obs'|]; cbn;
    [|by exists w; split; [|intros ? _ [? [=]]]].
  destruct (index_array (obs_se self) _) as [se'|]; cbn;
    [|by exists w; split; [|intros ? _ [? [=]]]].
  destruct (index_array (alt_dorms self) _) as [alt'|]; cbn;
    [|by exists w; split; [|intros ? _ [? [=]]]].
  destruct (index_array (ref_dorms self) _) as [ref'|]; cbn;
    [|by exists w; split; [|intros ? _ [? [=]]]].
  unfold bind at 1. rewrite (read_dict_Ok _ _ _ Hd).
  destruct (sort_covariates (covs self) (argsort ids) d [] w)
    as (w' & Hrun & Hw'); [done..|].
  exists w'. unfold bind.
  change (for_each (dict_keys d) _ w)
    with (for_each (dict_keys d) (sort_covariate (covs self) (argsort ids)) w).
  rewrite Hrun. split.
  - by destruct (permute_dict _ d).
  - intros d' Hd' _. by apply Hw'.
Qed.

(** ** The constructor *)

Lemma prepared_world_lookup l d0 add n w :
  heap (prepared_world l d0 add n w) !! l = Some (prepared_dict d0 add n).
Proof. apply lookup_insert_eq. Qed.

Lemma intercept_policy {B} l d0 add n w (k : M B) :
  heap w !! l = Some d0 →
  (add_intercept <-
     (if dict_is_empty d0 && negb add
      then warn intercept_warning ;;; ret true
      else ret add) ;;
   (if add_intercept : bool
    then d <- read_dict l ;;
         write_dict l (dict_update d [(KStr "intercept", np_ones n)])
    else ret ()) ;;;
   k) w
  = k (prepared_world l d0 add n w).
Proof.
  intros Hd. unfold prepared_world, prepared_dict.
  destruct add; cbn [negb andb orb].
  - rewrite andb_false_r. unfold bind at 1. cbn [ret].
    unfold bind at 1. unfold bind at 1.
    by rewrite (read_dict_Ok _ _ _ Hd).
  - rewrite andb_true_r. destruct (dict_is_empty d0).
    + unfold bind at 1. unfold bind at 1. cbn [warn ret].
      unfold bind at 1. unfold bind at 1. unfold read_dict. cbn [heap].
      by rewrite Hd.
    + unfold bind at 1. cbn [ret]. unfold bind at 1. cbn [ret].
      by rewrite world_insert_id.
Qed.

Lemma init_invalid obs se alt ref l d0 sid add w :
  heap w !! l = Some d0 →
  valid_inputs obs se (astype_str str_of_num alt) (astype_str str_of_num ref)
    (prepared_dict d0 add (size obs)) sid (size obs) = false →
  __init__ argsort str_of_num obs se alt ref (Some l) sid add w
  = (Raise AssertionError, prepared_world l d0 add (size obs) w).
Proof.
  intros Hd Hv. unfold __init__.
  unfold bind at 1. cbn [ret].
  unfold bind at 1. rewrite (read_dict_Ok _ _ _ Hd).
  etrans; [by apply intercept_policy|].
  unfold bind at 1.
  rewrite (read_dict_Ok _ _ _ (prepared_world_lookup _ _ _ _ _)).
  unfold bind at 1. rewrite check_spec by apply prepared_world_lookup.
  by rewrite Hv.
Qed.

Lemma pick_spec {B} arg (np_arg : list nat → M nat) sizes unique
    (k : scalar → M B) w :
  (∀ l, np_arg l = or_raise ValueError (arg l)) →
  (i <- np_arg sizes ;; s <- getitem unique i ;; k s) w
  = match pick arg sizes unique with
    | Ok s => k s w
    | Raise e => (Raise e, w)
    end.
Proof.
  intros ->. unfold pick, getitem, bind.
  destruct (arg sizes) as [i|]; cbn; [|done].
  by destruct (scalars unique !! i).
Qed.

Lemma init_valid obs se alt ref l d0 sid add w :
  heap w !! l = Some d0 →
  valid_inputs obs se (astype_str str_of_num alt) (astype_str str_of_num ref)
    (prepared_dict d0 add (size obs)) sid (size obs) = true →
  __init__ argsort str_of_num obs se alt ref (Some l) sid add w
  = match unsorted_object str_of_num obs se (astype_str str_of_num alt)
            (astype_str str_of_num ref) l sid
            (length (prepared_dict d0 add (size obs))) with
    | Ok u => sort_by_study_id argsort u (prepared_world l d0 add (size obs) w)
    | Raise e => (Raise e, prepared_world l d0 add (size obs) w)
    end.
Proof.
  intros Hd Hv. unfold __init__.
  unfold bind at 1. cbn [ret].
  unfold bind at 1. rewrite (read_dict_Ok _ _ _ Hd).
  etrans; [by apply intercept_policy|].
  unfold bind at 1.
  rewrite (read_dict_Ok _ _ _ (prepared_world_lookup _ _ _ _ _)).
  unfold bind at 1. rewrite check_spec by apply prepared_world_lookup.
  rewrite Hv. unfold unsorted_object.
  destruct (array_structure (np_hstack _ _ _)) as [[nd ds] ud].
  destruct (array_structure (astype_str _ alt)) as [[nad ads] uad].
  destruct (array_structure (astype_str _ ref)) as [[nrd rds] urd].
  rewrite (pick_spec argmax) by done.
  destruct (pick argmax ds ud); [|done].
  rewrite (pick_spec argmin) by done.
  destruct (pick argmin ds ud); [|done].
  rewrite (pick_spec argmax) by done.
  destruct (pick argmax ads uad); [|done].
  rewrite (pick_spec argmin) by done.
  destruct (pick argmin ads uad); [|done].
  rewrite (pick_spec argmax) by done.
  destruct (pick argmax rds urd); [|done].
  rewrite (pick_spec argmin) by done.
  destruct (pick argmin rds urd); [|done].
  by destruct sid as [ids|]; [destruct (array_structure ids) as [[??]?]|].
Qed.

Lemma init_None obs se alt ref sid add w :
  __init__ argsort str_of_num obs se alt ref None sid add w
  = __init__ argsort str_of_num obs se alt ref
      (Some (fresh (dom (heap w)))) sid add
      (World (<[fresh (dom (heap w)) := []]> (heap w)) (warned w)).
Proof. reflexivity. Qed.

Lemma sorted_object_inv u ids d :
  sorted_object argsort u ids = Some d →
  (∃ ids', index_array ids (argsort ids) = Some ids' ∧
           study_id d = Some ids') ∧
  index_array (obs u) (argsort ids) = Some (obs d) ∧
  index_array (obs_se u) (argsort ids) = Some (obs_se d) ∧
  index_array (alt_dorms u) (argsort ids) = Some (alt_dorms d) ∧
  index_array (ref_dorms u) (argsort ids) = Some (ref_dorms d) ∧
  same_structure d u.
Proof.
  unfold sorted_object. intros Hs.
  destruct (index_array ids _) as [ids'|]; [|done].
  destruct (index_array (obs u) _) as [obs'|]; [|done].
  destruct (index_array (obs_se u) _) as [se'|]; [|done].
  destruct (index_array (alt_dorms u) _) as [alt'|]; [|done].
  destruct (index_array (ref_dorms u) _) as [ref'|]; [|done].
  cbn in Hs. injection Hs as <-. cbn. unfold same_structure. cbn.
  split_and!; eauto.
Qed.

Lemma sorted_object_is_Some u ids :
  argsort ids ≡ₚ seq 0 (size ids) →
  size (obs u) = size ids → size (obs_se u) = size ids →
  size (alt_dorms u) = size ids → size (ref_dorms u) = size ids →
  is_Some (sorted_object argsort u ids).
Proof.
  intros Hp H1 H2 H3 H4. unfold sorted_object.
  destruct (index_array_is_Some ids _ Hp) as [? ->].
  destruct (index_array_is_Some (obs u) (argsort ids)) as [? ->];
    [by rewrite H1|].
  destruct (index_array_is_Some (obs_se u) (argsort ids)) as [? ->];
    [by rewrite H2|].
  destruct (index_array_is_Some (alt_dorms u) (argsort ids)) as [? ->];
    [by rewrite H3|].
  destruct (index_array_is_Some (ref_dorms u) (argsort ids)) as [? ->];
    [by rewrite H4|].
  by eexists.
Qed.

Lemma length_strs a : length (strs str_of_num a) = size a.
Proof. destruct a; cbn; [by rewrite length_fmap | done]. Qed.

Lemma size_astype_str a : size (astype_str str_of_num a) = size a.
Proof. apply length_strs. Qed.

Lemma size_hstack a b : size (np_hstack str_of_num a b) = size a + size b.
Proof.
  destruct a, b; cbn; rewrite length_app, ?length_fmap; done.
Qed.

Lemma pick_argmax_Ok sizes unique :
  0 < length sizes → length (scalars unique) = length sizes →
  ∃ s, pick argmax sizes unique = Ok s.
Proof.
  intros Hne Hlen. unfold pick.
  destruct (argmax sizes) as [i|] eqn:Hi; [|destruct sizes; [cbn in *; lia | done]].
  apply argmax_bound in Hi.
  destruct (lookup_lt_is_Some_2 (scalars unique) i) as [s ->]; [lia|eauto].
Qed.

Lemma pick_argmin_Ok sizes unique :
  0 < length sizes → length (scalars unique) = length sizes →
  ∃ s, pick argmin sizes unique = Ok s.
Proof.
  intros Hne Hlen. unfold pick.
  destruct (argmin sizes) as [i|] eqn:Hi; [|destruct sizes; [cbn in *; lia | done]].
  apply argmin_bound in Hi.
  destruct (lookup_lt_is_Some_2 (scalars unique) i) as [s ->]; [lia|eauto].
Qed.

Lemma unsorted_object_Ok obs se alt ref l sid ncovs :
  0 < size alt → 0 < size ref →
  ∃ u, unsorted_object str_of_num obs se alt ref l sid ncovs = Ok u.
Proof.
  intros Halt Href. unfold unsorted_object.
  destruct (array_structure (np_hstack _ _ _)) as [[nd ds] ud] eqn:Hd.
  destruct (array_structure alt) as [[nad ads] uad] eqn:Had.
  destruct (array_structure ref) as [[nrd rds] urd] eqn:Hrd.
  apply array_structure_lengths in Hd as (_ & Hd1 & Hd2 & Hd3).
  apply array_structure_lengths in Had as (_ & Ha1 & Ha2 & Ha3).
  apply array_structure_lengths in Hrd as (_ & Hr1 & Hr2 & Hr3).
  rewrite size_hstack in Hd3.
  destruct (pick_argmax_Ok ds ud) as [? ->]; [lia..|].
  destruct (pick_argmin_Ok ds ud) as [? ->]; [lia..|].
  destruct (pick_argmax_Ok ads uad) as [? ->]; [lia..|].
  destruct (pick_argmin_Ok ads uad) as [? ->]; [lia..|].
  destruct (pick_argmax_Ok rds urd) as [? ->]; [lia..|].
  destruct (pick_argmin_Ok rds urd) as [? ->]; [lia..|].
  destruct sid as [ids|]; [destruct (array_structure ids) as [[??]?]|]; eauto.
Qed.

Lemma unsorted_object_inv o se alt ref l sid ncovs u :
  unsorted_object str_of_num o se alt ref l sid ncovs = Ok u →
  obs u = o ∧ obs_se u = se ∧ alt_dorms u = alt ∧ ref_dorms u = ref ∧
  covs u = l ∧ study_id u = sid ∧ num_obs u = size o ∧
  num_covs u = ncovs ∧
  (num_dorms u, dorm_sizes u, unique_dorms u)
    = array_structure (np_hstack str_of_num alt ref) ∧
  (num_alt_dorms u, alt_dorm_sizes u, unique_alt_dorms u)
    = array_structure alt ∧
  (num_ref_dorms u, ref_dorm_sizes u, unique_ref_dorms u)
    = array_structure ref ∧
  pick argmax (dorm_sizes u) (unique_dorms u) = Ok (max_dorm u) ∧
  pick argmin (dorm_sizes u) (unique_dorms u) = Ok (min_dorm u) ∧
  pick argmax (alt_dorm_sizes u) (unique_alt_dorms u) = Ok (max_alt_dorm u) ∧
  pick argmax (ref_dorm_sizes u) (unique_ref_dorms u) = Ok (max_ref_dorm u) ∧
  pick argmin (ref_dorm_sizes u) (unique_ref_dorms u) = Ok (min_alt_dorm u) ∧
  dorm_idx u = foldl (λ acc '(i, dorm), dict_set dorm i acc) []
                 (enumerate (scalars (unique_dorms u))) ∧
  match sid with
  | None =>
      num_studies u = size o ∧ study_sizes u = replicate (size o) 1 ∧
      unique_study_id u = None
  | Some ids =>
      ∃ uu, (num_studies u, study_sizes u, uu) = array_structure ids ∧
            unique_study_id u = Some uu
  end.
Proof.
  intros Hu. unfold unsorted_object in Hu. destruct sid.
  all: repeat match type of Hu with
           | context [array_structure ?a] =>
               destruct (array_structure a) as [[??]?] eqn:?
           | context [pick ?a ?b ?c] =>
               destruct (pick a b c) eqn:?; [|discriminate]
           end.
  all: injection Hu as <-; cbn; split_and!; eauto.
Qed.

(** Valid, non-empty inputs are accepted, whatever permutation of the
    positions [np.argsort] returns. *)
Lemma init_Ok obs se alt ref l d0 sid add w :
  (∀ a, argsort a ≡ₚ seq 0 (size a)) →
  heap w !! l = Some d0 →
  NoDup (dict_keys d0) →
  valid_inputs obs se (astype_str str_of_num alt) (astype_str str_of_num ref)
    (prepared_dict d0 add (size obs)) sid (size obs) = true →
  0 < size obs →
  ∃ d w', __init__ argsort str_of_num obs se alt ref (Some l) sid add w
          = (Ok d, w').
Proof.
  intros Hperm Hd Hnd Hv Hn. rewrite (init_valid _ _ _ _ _ d0) by done.
  pose proof (valid_inputs_inv _ _ _ _ _ _ _ Hv)
    as ((xs & -> & Hxs) & (ys & -> & Hys & _) & Halt & Href & _ & Hsid).
  set (n := size (NumArray xs)) in *.
  destruct (unsorted_object_Ok (NumArray xs) (NumArray ys)
              (astype_str str_of_num alt) (astype_str str_of_num ref) l sid
              (length (prepared_dict d0 add n))) as [u Hu]; [lia..|].
  rewrite Hu.
  apply unsorted_object_inv in Hu
    as (Ho & Hs & Ha & Hr & Hl & Hi & _).
  destruct sid as [ids|].
  - destruct Hsid as (zs & -> & Hzs).
    destruct (sort_by_study_id_Some u (NumArray zs) (prepared_dict d0 add n)
                (prepared_world l d0 add n w)) as (w' & -> & _).
    { done. }
    { rewrite Hl. apply prepared_world_lookup. }
    { unfold prepared_dict. case_match; [by apply dict_set_NoDup|done]. }
    destruct (sorted_object_is_Some u (NumArray zs)) as [s ->].
    { done. } 
    { rewrite Ho. cbn. lia. }
    { rewrite Hs. cbn. lia. }
    { rewrite Ha. cbn in *. lia. }
    { rewrite Hr. cbn in *. lia. }
    destruct (permute_dict_is_Some (argsort (NumArray zs))
                (prepared_dict d0 add n) n) as [d' ->].
    { rewrite Hperm. cbn. by rewrite Hzs. }
    { eapply valid_inputs_covariates; [done|].
      unfold prepared_dict. case_match; [by apply dict_set_NoDup|done]. }
    eauto.
  - rewrite sort_by_study_id_None by done. eauto.
Qed.

(** *** The two ways of passing [covs] *)

Lemma prepared_world_fresh l d0 add n w :
  prepared_world l d0 add n (World (<[l := []]> (heap w)) (warned w))
  = prepared_world l d0 add n w.
Proof. unfold prepared_world. cbn. by rewrite insert_insert_eq. Qed.

Lemma init_no_dict obs se alt ref covs sid add w :
  covs_dict covs w = None →
  __init__ argsort str_of_num obs se alt ref covs sid add w
  = (Raise TypeError, w).
Proof.
  destruct covs as [l|]; [|done]. intros Hl. cbn in Hl.
  unfold __init__. unfold bind at 1. cbn [ret]. unfold bind at 1.
  unfold read_dict. by rewrite Hl.
Qed.

Lemma init_rejects obs se alt ref covs d0 sid add w :
  covs_dict covs w = Some d0 →
  valid_inputs obs se (astype_str str_of_num alt) (astype_str str_of_num ref)
    (prepared_dict d0 add (size obs)) sid (size obs) = false →
  __init__ argsort str_of_num obs se alt ref covs sid add w
  = (Raise AssertionError,
     prepared_world (covs_ref covs w) d0 add (size obs) w).
Proof.
  destruct covs as [l|]; [apply init_invalid|].
  intros Hd0 Hv. cbn in Hd0. injection Hd0 as <-.
  - rewrite init_None. cbn [covs_ref].
    rewrite (init_invalid _ _ _ _ _ []); [|apply lookup_insert_eq|done].
    by rewrite prepared_world_fresh.
Qed.

Lemma init_inv obs se alt ref covs sid add w d w' :
  (is_Some sid → wf_world w) →
  __init__ argsort str_of_num obs se alt ref covs sid add w = (Ok d, w') →
  let n := size obs in
  ∃ d0 u,
    covs_dict covs w = Some d0 ∧
    let d1 := prepared_dict d0 add n in
    let w1 := prepared_world (covs_ref covs w) d0 add n w in
    valid_inputs obs se (astype_str str_of_num alt)
      (astype_str str_of_num ref) d1 sid n = true ∧
    unsorted_object str_of_num obs se (astype_str str_of_num alt)
      (astype_str str_of_num ref) (covs_ref covs w) sid (length d1) = Ok u ∧
    match sid with
    | None => d = u ∧ w' = w1
    | Some ids =>
        sorted_object argsort u ids = Some d ∧
        ∃ d1', permute_dict (argsort ids) d1 = Some d1' ∧
               w' = World (<[covs_ref covs w := d1']> (heap w)) (warned w1)
    end.
Proof.
  intros Hwf Hrun n.
  destruct (covs_dict covs w) as [d0|] eqn:Hd0;
    [|by rewrite init_no_dict in Hrun].
  exists d0.
  destruct (valid_inputs obs se (astype_str str_of_num alt)
              (astype_str str_of_num ref) (prepared_dict d0 add n) sid n)
    eqn:Hv; [|by rewrite (init_rejects _ _ _ _ _ d0) in Hrun].
  destruct covs as [l|]; cbn in Hd0.
  - rewrite (init_valid _ _ _ _ _ d0) in Hrun by done. fold n in Hrun.
    cbn [covs_ref].
    destruct (unsorted_object str_of_num _ _ _ _ _ _ _) as [u|e] eqn:Hu; [|done].
    exists u. split_and!; [done..|].
    pose proof (unsorted_object_inv _ _ _ _ _ _ _ _ Hu)
      as (_ & _ & _ & _ & Hl & Hsid & _).
    destruct sid as [ids|].
    + destruct (sort_by_study_id_Some u ids (prepared_dict d0 add n)
                  (prepared_world l d0 add n w)) as (w'' & Hsort & Hw'').
      { done. }
      { rewrite Hl. apply prepared_world_lookup. }
      { unfold prepared_dict. case_match; [apply dict_set_NoDup|];
          eapply Hwf; eauto. }
      rewrite Hsort in Hrun.
      destruct (sorted_object argsort u ids) as [s|] eqn:Hs; [|done].
      destruct (permute_dict (argsort ids) _) as [d1'|] eqn:Hp; [|done].
      injection Hrun as -> ->. split; [done|]. exists d1'. split; [done|].
      rewrite (Hw'' d1') by eauto. rewrite Hl. cbn.
      by rewrite insert_insert_eq.
    + rewrite sort_by_study_id_None in Hrun by done.
      by injection Hrun as -> ->.
  - injection Hd0 as <-. rewrite init_None in Hrun.
    set (l := fresh (dom (heap w))) in *.
    rewrite (init_valid _ _ _ _ _ []) in Hrun;
      [|apply lookup_insert_eq|done]. fold n in Hrun.
    rewrite prepared_world_fresh in Hrun. cbn [covs_ref]. fold l.
    destruct (unsorted_object str_of_num _ _ _ _ _ _ _) as [u|e] eqn:Hu; [|done].
    exists u. split_and!; [done..|].
    pose proof (unsorted_object_inv _ _ _ _ _ _ _ _ Hu)
      as (_ & _ & _ & _ & Hl & Hsid & _).
    destruct sid as [ids|].
    + destruct (sort_by_study_id_Some u ids (prepared_dict [] add n)
                  (prepared_world l [] add n w)) as (w'' & Hsort & Hw'').
      { done. }
      { rewrite Hl. apply prepared_world_lookup. }
      { unfold prepared_dict. case_match; [apply dict_set_NoDup|];
          apply NoDup_nil_2. }
      rewrite Hsort in Hrun.
      destruct (sorted_object argsort u ids) as [s|] eqn:Hs; [|done].
      destruct (permute_dict (argsort ids) _) as [d1'|] eqn:Hp; [|done].
      injection Hrun as -> ->. split; [done|]. exists d1'. split; [done|].
      rewrite (Hw'' d1') by eauto. rewrite Hl. cbn.
      by rewrite insert_insert_eq.
    + rewrite sort_by_study_id_None in Hrun by done.
      by injection Hrun as -> ->.
Qed.

Lemma init_accepts obs se alt ref covs d0 sid add w :
  argsort_permutes argsort →
  wf_world w →
  covs_dict covs w = Some d0 →
  valid_inputs obs se (astype_str str_of_num alt) (astype_str str_of_num ref)
    (prepared_dict d0 add (size obs)) sid (size obs) = true →
  0 < size obs →
  ∃ d w', __init__ argsort str_of_num obs se alt ref covs sid add w
          = (Ok d, w').
Proof.
  intros Hperm Hwf Hd0 Hv Hn. destruct covs as [l|]; cbn in Hd0.
  - eapply init_Ok; eauto.
  - injection Hd0 as <-. rewrite init_None.
    eapply init_Ok; eauto; [apply lookup_insert_eq | apply NoDup_nil_2].
Qed.
End CWData_facts.

(** ** The sorts keep the promise of [np.argsort] *)

Section argsort_by.
Context {A : Type} (le : relation A) (R : relation (nat * A)).
Context `{!RelDecision R, !Total R}.
Hypothesis R_le : ∀ p q, R p q → le p.2 q.2.

Lemma argsort_by_permutes xs :
  (merge_sort R (enumerate xs)).*1 ≡ₚ seq 0 (length xs).
Proof.
  unfold enumerate. rewrite merge_sort_Permutation.
  rewrite fst_zip; [done|]. by rewrite length_seq.
Qed.

Lemma argsort_by_gather xs :
  gather xs (merge_sort R (enumerate xs)).*1
  = Some (merge_sort R (enumerate xs)).*2.
Proof.
  apply mapM_Some_2, Forall2_fmap, Forall_Forall2_diag, Forall_forall.
  intros [i x] Hix. rewrite merge_sort_Permutation in Hix.
  apply elem_of_lookup_zip_with in Hix as (j & i' & x' & [= -> ->] & Hi & Hx).
  apply lookup_seq in Hi as [-> _]. done.
Qed.

Lemma argsort_by_sorted xs ys :
  gather xs (merge_sort R (enumerate xs)).*1 = Some ys → Sorted le ys.
Proof.
  rewrite argsort_by_gather. intros [= <-].
  apply Sorted_fmap with (R1 := R); [done|]. apply Sorted_merge_sort, _.
Qed.
End argsort_by.

#[global] Instance Qle_total : Total Qle.
Proof.
  intros x y. destruct (Qlt_le_dec x y); [left; by apply Qlt_le_weak | by right].
Qed.

#[global] Instance str_le_total : Total str_le.
Proof. intros s t. apply String.leb_total. Qed.

#[global] Instance key_le_total {A} (le : relation A) `{!Total le} :
  Total (key_le le).
Proof. intros p q. apply (total le). Qed.

Lemma stable_argsort_permutes : argsort_permutes stable_argsort.
Proof. intros [xs|xs]; apply argsort_by_permutes. Qed.

Lemma stable_argsort_sorts : argsort_sorts stable_argsort.
Proof.
  intros xs ys. apply (argsort_by_sorted Qle (key_le Qle)). by intros p q.
Qed.

(** The network keeps the promise too: by cases on the order of the keys. *)
Ltac split_keys :=
  unfold vec_argsort, sort_vec, cmp_merge, mask_mov, permutexvar,
    lane_min, lane_max, lane_eq, lane_le; cbn;
  repeat (case_bool_decide; try (exfalso; lra); cbn).

Lemma vec_argsort_permutes xs :
  length xs ≤ 4 → vec_argsort xs ≡ₚ seq 0 (length xs).
Proof.
  intros Hn.
  destruct xs as [|a [|b [|c [|e [|? ?]]]]]; cbn in Hn; try lia; clear Hn.
  all: split_keys; try done.
  all: apply (bool_decide_unpack _); vm_compute; exact I.
Qed.

Lemma vec_argsort_sorts xs ys :
  length xs ≤ 4 → gather xs (vec_argsort xs) = Some ys → Sorted Qle ys.
Proof.
  intros Hn.
  destruct xs as [|a [|b [|c [|e [|? ?]]]]]; cbn in Hn; try lia; clear Hn.
  all: split_keys; intros [= <-]; repeat constructor; lra.
Qed.

Lemma simd_argsort_permutes : argsort_permutes simd_argsort.
Proof.
  intros [xs|xs]; [|apply stable_argsort_permutes]. cbn.
  case_decide; [by apply vec_argsort_permutes|].
  apply (stable_argsort_permutes (NumArray xs)).
Qed.

Lemma simd_argsort_sorts : argsort_sorts simd_argsort.
Proof.
  intros xs ys. cbn.
  case_decide; [by apply vec_argsort_sorts | apply stable_argsort_sorts].
Qed.

(** * The claims *)

Lemma wf_empty_world : wf_world empty_world.
Proof. intros l d Hl. cbn in Hl. by rewrite lookup_empty in Hl. Qed.

(** C1: the object does not expose the alt-only and the ref-only minimum as
    two scalars.  With alt definitions [A, B, B, B, B, B] and ref definitions
    [A, A, C, C, C, D] the definition of smallest group size is [A] among the
    alt definitions and [D] among the ref definitions; the constructed object
    has [min_alt_dorm = D], and none of its extreme definitions is [A]:
    line 88 assigns the ref-only minimum to [min_alt_dorm], over the alt-only
    minimum of line 84. *)
Theorem min_alt_dorm_holds_ref_minimum argsort str_of_num :
  ∃ d w',
    __init__ argsort str_of_num
      (NumArray [1; 2; 3; 4; 5; 6]%Q) (NumArray [1; 1; 1; 1; 1; 1]%Q)
      (StrArray ["A"; "B"; "B"; "B"; "B"; "B"])
      (StrArray ["A"; "A"; "C"; "C"; "C"; "D"])
      None None true empty_world = (Ok d, w') ∧
    pick argmin (alt_dorm_sizes d) (unique_alt_dorms d) = Ok (SStr "A") ∧
    pick argmin (ref_dorm_sizes d) (unique_ref_dorms d) = Ok (SStr "D") ∧
    min_alt_dorm d = SStr "D" ∧
    SStr "A" ∉ [max_dorm d; min_dorm d; max_alt_dorm d; min_alt_dorm d;
                max_ref_dorm d].
Proof.
  eexists _, _. split; [vm_compute; reflexivity|]. cbn.
  split_and!; [done..|]. rewrite !not_elem_of_cons. split_and!; try done.
  apply not_elem_of_nil.
Qed.

(** In every constructed object [min_alt_dorm] is the ref-only minimum. *)
Lemma min_alt_dorm_is_ref_minimum argsort str_of_num
    o se alt ref covs sid add w d w' :
  wf_world w →
  __init__ argsort str_of_num o se alt ref covs sid add w = (Ok d, w') →
  pick argmin (ref_dorm_sizes d) (unique_ref_dorms d) = Ok (min_alt_dorm d).
Proof.
  intros Hwf (d0 & u & _ & _ & Hu & Hd)%init_inv; [|done].
  apply unsorted_object_inv in Hu as Hf.
  assert (unique_ref_dorms d = unique_ref_dorms u ∧
          ref_dorm_sizes d = ref_dorm_sizes u ∧
          min_alt_dorm d = min_alt_dorm u) as (-> & -> & ->).
  { destruct sid as [ids|].
    - destruct Hd as [Hs _]. apply sorted_object_inv in Hs.
      unfold same_structure in Hs. intuition.
    - by destruct Hd as [-> _]. }
  intuition.
Qed.

(** C10: empty inputs pass the validation and are rejected all the same:
    the counts of the definitions are an empty sequence, of which
    [np.argmax] has no position to return, and raises [ValueError]. *)
Theorem empty_inputs_raise argsort str_of_num o se alt ref covs d0 sid add w :
  covs_dict covs w = Some d0 →
  valid_inputs o se (astype_str str_of_num alt) (astype_str str_of_num ref)
    (prepared_dict d0 add (size o)) sid (size o) = true →
  size o = 0 →
  __init__ argsort str_of_num o se alt ref covs sid add w
  = (Raise ValueError, prepared_world (covs_ref covs w) d0 add 0 w).
Proof.
  intros Hd0 Hv Hn.
  assert (unsorted_object str_of_num o se (astype_str str_of_num alt)
            (astype_str str_of_num ref) (covs_ref covs w) sid
            (length (prepared_dict d0 add (size o))) = Raise ValueError) as Hu.
  { apply valid_inputs_inv in Hv as (_ & _ & Halt & Href & _).
    rewrite Hn in Halt, Href. unfold astype_str in *. cbn in Halt, Href.
    apply nil_length_inv in Halt, Href. rewrite Halt, Href. done. }
  destruct covs as [l|]; cbn in Hd0; cbn [covs_ref] in *.
  - rewrite (init_valid _ _ _ _ _ _ _ d0) by done. rewrite Hu. by rewrite Hn.
  - injection Hd0 as <-. rewrite init_None.
    rewrite (init_valid _ _ _ _ _ _ _ []); [|apply lookup_insert_eq|done].
    rewrite Hu, prepared_world_fresh. by rewrite Hn.
Qed.

Lemma empty_inputs_raise_witness :
  __init__ stable_argsort no_str (NumArray []) (NumArray [])
    (StrArray []) (StrArray []) None None true empty_world
  = (Raise ValueError,
     prepared_world (covs_ref None empty_world) [] true 0 empty_world).
Proof.
  apply (empty_inputs_raise stable_argsort no_str (NumArray []) (NumArray [])
           (StrArray []) (StrArray []) None [] None true empty_world);
    reflexivity.
Defined.

Lemma nonpositive_se_invalid o xs alt ref d sid n x :
  x ∈ xs → (x <= 0)%Q →
  valid_inputs o (NumArray xs) alt ref d sid n = false.
Proof.
  intros Hx Hle. apply not_true_iff_false.
  intros (_ & (ys & [= <-] & _ & Hpos) & _)%valid_inputs_inv.
  eapply Forall_forall in Hpos; [|done]. by apply Qlt_not_le in Hpos.
Qed.

Lemma prepared_dict_get_other d0 add n k :
  k ≠ KStr "intercept" →
  dict_get k (prepared_dict d0 add n) = dict_get k d0.
Proof.
  intros Hk. unfold prepared_dict. case_match; [|done].
  by apply dict_get_set_ne.
Qed.

(** C3: in every constructed object all standard errors are positive, and
    an input with a standard error that is zero or negative is rejected:
    the constructor raises, and returns no object. *)
Theorem standard_errors_positive argsort str_of_num
    o se alt ref covs sid add w :
  wf_world w →
  (∀ d w',
     __init__ argsort str_of_num o se alt ref covs sid add w = (Ok d, w') →
     ∃ ys, obs_se d = NumArray ys ∧ Forall (λ y, (0 < y)%Q) ys) ∧
  (∀ xs x,
     se = NumArray xs → x ∈ xs → (x <= 0)%Q →
     ∃ e w',
       __init__ argsort str_of_num o se alt ref covs sid add w = (Raise e, w')).
Proof.
  intros Hwf. split.
  - intros d w' (d0 & u & _ & Hv & Hu & Hd)%init_inv; [|done].
    apply valid_inputs_inv in Hv as (_ & (ys & -> & _ & Hpos) & _).
    apply unsorted_object_inv in Hu as (_ & Hse & _).
    destruct sid as [ids|].
    + destruct Hd as [Hs _]. apply sorted_object_inv in Hs as (_ & _ & Hs & _).
      rewrite Hse in Hs. cbn in Hs.
      destruct (gather ys _) as [ys'|] eqn:Hg; [|done]. injection Hs as <-.
      exists ys'. split; [done|]. apply Forall_forall. intros y Hy.
      eapply Forall_forall; [done|]. by eapply gather_elem_of.
    + destruct Hd as [-> _]. eauto.
  - intros xs x -> Hx Hle.
    destruct (covs_dict covs w) as [d0|] eqn:Hd0.
    + eexists _, _. apply init_rejects; [done|].
      by eapply nonpositive_se_invalid.
    + eexists _, _. by apply init_no_dict.
Qed.

Lemma standard_errors_positive_witness :
  (∃ d w',
     __init__ stable_argsort no_str (NumArray [5; 7]%Q) (NumArray [1 # 2; 3]%Q)
       (StrArray ["a"; "b"]) (StrArray ["b"; "b"])
       None (Some (NumArray [2; 1]%Q)) true empty_world = (Ok d, w') ∧
     ∃ ys, obs_se d = NumArray ys ∧ Forall (λ y, (0 < y)%Q) ys) ∧
  (∃ e w',
     __init__ stable_argsort no_str (NumArray [5; 7]%Q) (NumArray [1 # 2; 0]%Q)
       (StrArray ["a"; "b"]) (StrArray ["b"; "b"]) None None true empty_world
     = (Raise e, w')).
Proof.
  split.
  - eexists _, _. split; [vm_compute; reflexivity|].
    eapply (standard_errors_positive stable_argsort no_str
              (NumArray [5; 7]%Q) (NumArray [1 # 2; 3]%Q)
              (StrArray ["a"; "b"]) (StrArray ["b"; "b"])
              None (Some (NumArray [2; 1]%Q)) true
              empty_world wf_empty_world).
    vm_compute. reflexivity.
  - eapply (standard_errors_positive stable_argsort no_str
              (NumArray [5; 7]%Q) (NumArray [1 # 2; 0]%Q)
              (StrArray ["a"; "b"]) (StrArray ["b"; "b"]) None None true
              empty_world wf_empty_world).
    + reflexivity.
    + apply elem_of_cons. right. apply elem_of_cons. by left.
    + by vm_compute.
Defined.

(** C8: without [study_id] every observation is a study of its own and
    nothing is sorted: the sequences of the object are the ones supplied (the
    definitions as strings), and so are the covariates, next to the
    intercept. *)
Theorem without_study_id argsort str_of_num o se alt ref cv add w d w' :
  __init__ argsort str_of_num o se alt ref cv None add w = (Ok d, w') →
  num_obs d = size o ∧
  num_studies d = size o ∧
  study_sizes d = replicate (size o) 1 ∧
  Forall (λ c, c = 1) (study_sizes d) ∧
  unique_study_id d = None ∧ study_id d = None ∧
  obs d = o ∧ obs_se d = se ∧
  alt_dorms d = StrArray (strs str_of_num alt) ∧
  ref_dorms d = StrArray (strs str_of_num ref) ∧
  ∃ d0 d1,
    covs_dict cv w = Some d0 ∧ heap w' !! covs d = Some d1 ∧
    ∀ k, k ≠ KStr "intercept" → dict_get k d1 = dict_get k d0.
Proof.
  intros (d0 & u & Hd0 & _ & Hu & -> & ->)%init_inv; [|by intros [? [=]]].
  apply unsorted_object_inv in Hu
    as (-> & -> & -> & -> & -> & -> & -> & _ & _ & _ & _ & _ & _ & _ & _ & _ & _
        & -> & -> & ->).
  split_and!; try done.
  - by apply Forall_replicate.
  - eexists d0, _. split_and!; [done|apply prepared_world_lookup|].
    intros k Hk. by apply prepared_dict_get_other.
Qed.

Lemma without_study_id_witness :
  ∃ d w',
    __init__ stable_argsort no_str (NumArray [5; 7; 6]%Q)
      (NumArray [1 # 2; 3; 1]%Q) (StrArray ["b"; "a"; "b"])
      (StrArray ["c"; "b"; "a"]) None None true empty_world = (Ok d, w') ∧
    num_studies d = 3 ∧ study_sizes d = [1; 1; 1] ∧
    obs d = NumArray [5; 7; 6]%Q ∧ alt_dorms d = StrArray ["b"; "a"; "b"].
Proof.
  eexists _, _. split; [vm_compute; reflexivity|].
  pose proof (without_study_id stable_argsort no_str (NumArray [5; 7; 6]%Q)
                (NumArray [1 # 2; 3; 1]%Q) (StrArray ["b"; "a"; "b"])
                (StrArray ["c"; "b"; "a"]) None true empty_world _ _ eq_refl)
    as (_ & H1 & H2 & _ & _ & _ & H3 & _ & H4 & _).
  exact (conj H1 (conj H2 (conj H3 H4))).
Defined.

Lemma dict_set_fresh {K V} `{EqDecision K} (d : list (K * V)) k v :
  k ∉ dict_keys d → dict_set k v d = d ++ [(k, v)].
Proof.
  intros Hk. rewrite <- (app_nil_r d) at 1.
  by rewrite dict_set_app_fresh.
Qed.

Lemma dict_of_enumerate {K} `{EqDecision K} (ks : list K) : ∀ m acc,
  NoDup (dict_keys acc ++ ks) →
  foldl (λ acc '(i, k), dict_set k i acc) acc (zip (seq m (length ks)) ks)
  = acc ++ zip ks (seq m (length ks)).
Proof.
  induction ks as [|k ks IH]; intros m acc Hnd; cbn.
  - by rewrite app_nil_r.
  - apply NoDup_app in Hnd as Hnd'. destruct Hnd' as (_ & Hk & _).
    rewrite dict_set_fresh.
    2:{ intros Hin. apply (Hk _ Hin). left. }
    rewrite IH.
    + by rewrite <- (assoc_L (++)).
    + unfold dict_keys. rewrite fmap_app. cbn.
      by rewrite <- (assoc_L (++)).
Qed.

Lemma dict_get_zip_seq {K} `{EqDecision K} (ks : list K) k i : ∀ m,
  NoDup ks →
  dict_get k (zip ks (seq m (length ks))) = Some (m + i) ↔ ks !! i = Some k.
Proof.
  revert i. induction ks as [|k' ks IH]; intros i m Hnd; cbn; [done|].
  apply NoDup_cons in Hnd as [Hk' Hnd]. case_decide as Hk.
  - subst k'. destruct i as [|i]; cbn.
    + rewrite Nat.add_0_r. done.
    + split; [intros [=]; lia|]. intros Hi. destruct Hk'.
      by eapply list_elem_of_lookup_2.
  - destruct i as [|i]; cbn.
    + split; [|by intros [= ->]]. rewrite Nat.add_0_r. intros Hget.
      apply dict_get_Some_elem_of, elem_of_zip_r, elem_of_seq in Hget. lia.
    + rewrite <- (IH i (S m)) by done. by rewrite Nat.add_succ_r.
Qed.

(** C7: [dorm_idx] maps each label of the sorted sequence of the distinct
    definitions (of the alt definitions followed by the ref definitions) to
    its position in that sequence; the sequence is strictly ascending and
    has exactly the labels that occur.  For alt definitions [A, B, A] and
    ref definitions [B, C, A]: labels [A, B, C], counts [3, 2, 1], three
    distinct definitions, and index [A: 0, B: 1, C: 2]. *)
Theorem definition_index argsort str_of_num o se alt ref cv sid add w d w' :
  wf_world w →
  __init__ argsort str_of_num o se alt ref cv sid add w = (Ok d, w') →
  let labels := strs str_of_num alt ++ strs str_of_num ref in
  let unique := unique_sorted String.compare labels in
  (unique_dorms d = StrArray unique ∧
   num_dorms d = length unique ∧
   dorm_sizes d = (λ s, occurrences String.compare s labels) <$> unique ∧
   StronglySorted (λ s t, String.compare s t = Lt) unique ∧
   (∀ s, s ∈ unique ↔ s ∈ labels) ∧
   dorm_idx d = zip (SStr <$> unique) (seq 0 (length unique)) ∧
   (∀ s i, dict_get (SStr s) (dorm_idx d) = Some i ↔ unique !! i = Some s)) ∧
  (alt = StrArray ["A"; "B"; "A"] → ref = StrArray ["B"; "C"; "A"] →
   unique_dorms d = StrArray ["A"; "B"; "C"] ∧
   dorm_sizes d = [3; 2; 1] ∧ num_dorms d = 3 ∧
   dorm_idx d = [(SStr "A", 0); (SStr "B", 1); (SStr "C", 2)]).
Proof.
  intros Hwf (d0 & u & _ & _ & Hu & Hd)%init_inv labels unique; [|done].
  apply unsorted_object_inv in Hu as Hf.
  destruct Hf as (_ & _ & _ & _ & _ & _ & _ & _ & Hs & _ & _ & _ & _ & _ & _
                  & _ & Hidx & _).
  assert (unique_dorms d = unique_dorms u ∧ dorm_sizes d = dorm_sizes u ∧
          num_dorms d = num_dorms u ∧ dorm_idx d = dorm_idx u)
    as (-> & -> & -> & ->).
  { destruct sid as [ids|].
    - destruct Hd as [Hd _]. apply sorted_object_inv in Hd.
      unfold same_structure in Hd. intuition.
    - by destruct Hd as [-> _]. }
  change (np_hstack str_of_num (astype_str str_of_num alt)
            (astype_str str_of_num ref)) with (StrArray labels) in Hs.
  cbn in Hs. fold unique in Hs. injection Hs as Hn Hc Hq.
  pose proof (unique_sorted_NoDup String.compare string_compare_eq
                string_compare_gt string_compare_trans labels) as Hnd.
  fold unique in Hnd.
  assert (dorm_idx u = zip (SStr <$> unique) (seq 0 (length unique))) as Hzip.
  { rewrite Hidx, Hq. unfold enumerate. cbn [scalars].
    rewrite (dict_of_enumerate (SStr <$> unique) 0 []), length_fmap; [done|].
    cbn. apply NoDup_fmap_2; [by intros ?? [=] | done]. }
  split.
  - split_and!; [done..| | |done|].
    + apply (unique_sorted_sorted String.compare string_compare_eq
               string_compare_gt string_compare_trans).
    + intros s.
      apply (elem_of_unique_sorted String.compare string_compare_eq).
    + intros s i. rewrite Hzip. rewrite <- (length_fmap SStr).
      rewrite (dict_get_zip_seq (SStr <$> unique) (SStr s) i 0).
      * rewrite list_lookup_fmap. destruct (unique !! i); cbn; naive_solver.
      * apply NoDup_fmap_2; [by intros ?? [=] | done].
  - intros -> ->. rewrite Hzip, Hq, Hc, Hn. done.
Qed.

Lemma definition_index_witness :
  ∃ d w',
    __init__ stable_argsort no_str (NumArray [5; 7; 6]%Q)
      (NumArray [1 # 2; 3; 1]%Q) (StrArray ["A"; "B"; "A"])
      (StrArray ["B"; "C"; "A"]) None None true empty_world = (Ok d, w') ∧
    unique_dorms d = StrArray ["A"; "B"; "C"] ∧
    dorm_sizes d = [3; 2; 1] ∧ num_dorms d = 3 ∧
    dorm_idx d = [(SStr "A", 0); (SStr "B", 1); (SStr "C", 2)].
Proof.
  eexists _, _. split; [vm_compute; reflexivity|].
  apply (definition_index stable_argsort no_str (NumArray [5; 7; 6]%Q)
           (NumArray [1 # 2; 3; 1]%Q) (StrArray ["A"; "B"; "A"])
           (StrArray ["B"; "C"; "A"]) None None true empty_world _ _
           wf_empty_world eq_refl); reflexivity.
Defined.

(** ** The covariates of the caller *)

Lemma gather_replicate {A} (x : A) n idx ys :
  gather (replicate n x) idx = Some ys → ys = replicate (length idx) x.
Proof.
  intros Hg. symmetry. apply replicate_as_Forall. split.
  - by eapply gather_length.
  - apply Forall_forall. intros y Hy.
    eapply gather_elem_of, elem_of_replicate in Hy as [-> _]; done.
Qed.

Lemma index_array_ones n idx a :
  index_array (np_ones n) idx = Some a → a = np_ones (length idx).
Proof.
  cbn. destruct (gather _ idx) as [ys|] eqn:Hg; [|done]. intros [= <-].
  by rewrite (gather_replicate _ _ _ _ Hg).
Qed.

(** The store and the dimensions after a successful construction: the dict
    the object refers to is the one the constructor was given (or the new
    one), with the intercept policy applied and then the sort. *)
Lemma init_covariates argsort str_of_num o se alt ref cv sid add w d w' :
  wf_world w →
  __init__ argsort str_of_num o se alt ref cv sid add w = (Ok d, w') →
  ∃ d0 d1,
    covs_dict cv w = Some d0 ∧
    valid_inputs o se (astype_str str_of_num alt) (astype_str str_of_num ref)
      (prepared_dict d0 add (size o)) sid (size o) = true ∧
    covs d = covs_ref cv w ∧ num_obs d = size o ∧
    num_covs d = length (prepared_dict d0 add (size o)) ∧
    warned w' = (if dict_is_empty d0 && negb add
                 then warned w ++ [intercept_warning] else warned w) ∧
    heap w' = <[covs_ref cv w := d1]> (heap w) ∧
    match sid with
    | None => d1 = prepared_dict d0 add (size o)
    | Some ids =>
        permute_dict (argsort ids) (prepared_dict d0 add (size o)) = Some d1
    end.
Proof.
  intros Hwf (d0 & u & Hd0 & Hv & Hu & Hd)%init_inv; [|done].
  apply unsorted_object_inv in Hu
    as (_ & _ & _ & _ & Hl & _ & Hn & Hc & _).
  destruct sid as [ids|].
  - destruct Hd as (Hs & d1 & Hp & ->).
    apply sorted_object_inv in Hs as (_ & _ & _ & _ & _ & Hs).
    destruct Hs as (-> & -> & -> & _).
    exists d0, d1. by split_and!.
  - destruct Hd as [-> ->]. eexists d0, _. by split_and!.
Qed.

(** C5, as stated, fails: a rejected construction has already written the
    intercept into the caller's dict.  Here a negative standard error is
    rejected, and the caller's [{"x": [1, 2]}] is left with an intercept. *)
Lemma rejected_construction_changes_covariates :
  let caller := [(KStr "x", NumArray [1; 2]%Q)] in
  ∃ e w',
    __init__ stable_argsort no_str (NumArray [5; 7]%Q) (NumArray [1; -1]%Q)
      (StrArray ["a"; "b"]) (StrArray ["b"; "b"])
      (Some 1%positive) None true (World {[1%positive := caller]} [])
    = (Raise e, w') ∧
    heap w' !! 1%positive
    = Some [(KStr "x", NumArray [1; 2]%Q);
            (KStr "intercept", NumArray [1; 1]%Q)] ∧
    heap w' !! 1%positive ≠ Some caller.
Proof.
  eexists _, _. split; [vm_compute; reflexivity|].
  split; [vm_compute; reflexivity|]. intros Heq. vm_compute in Heq. done.
Qed.

(** C5, amended: when an assertion of [check] fails the constructor raises
    [AssertionError] and returns no object; no other dict of the store
    changes, but the dict of the covariates has by then received the
    intercept, if the intercept is added (asked for, or forced because there
    are no covariates); it is unchanged when the caller declined the
    intercept and supplied covariates. *)
Theorem rejected_construction argsort str_of_num o se alt ref cv d0 sid add w :
  covs_dict cv w = Some d0 →
  valid_inputs o se (astype_str str_of_num alt) (astype_str str_of_num ref)
    (prepared_dict d0 add (size o)) sid (size o) = false →
  ∃ w',
    __init__ argsort str_of_num o se alt ref cv sid add w
    = (Raise AssertionError, w') ∧
    heap w' !! covs_ref cv w
    = Some (if add || dict_is_empty d0
            then dict_set (KStr "intercept") (np_ones (size o)) d0
            else d0) ∧
    (∀ l, l ≠ covs_ref cv w → heap w' !! l = heap w !! l) ∧
    (add = false → d0 ≠ [] → heap w' = heap w).
Proof.
  intros Hd0 Hv. eexists. split; [by apply init_rejects|]. split_and!.
  - apply prepared_world_lookup.
  - intros l Hl. cbn. by rewrite lookup_insert_ne.
  - intros -> Hne. destruct cv as [l|]; [|by injection Hd0 as <-].
    cbn in *. unfold prepared_dict. destruct d0; [done|]. cbn.
    by rewrite insert_id.
Qed.

Lemma rejected_construction_witness :
  ∃ w',
    __init__ stable_argsort no_str (NumArray [5; 7]%Q) (NumArray [1; -1]%Q)
      (StrArray ["a"; "b"]) (StrArray ["b"; "b"])
      (Some 1%positive) None false
      (World {[1%positive := [(KStr "x", NumArray [1; 2]%Q)]]} [])
    = (Raise AssertionError, w') ∧
    heap w' !! 1%positive = Some [(KStr "x", NumArray [1; 2]%Q)].
Proof.
  destruct (rejected_construction stable_argsort no_str
              (NumArray [5; 7]%Q) (NumArray [1; -1]%Q)
              (StrArray ["a"; "b"]) (StrArray ["b"; "b"])
              (Some 1%positive) [(KStr "x", NumArray [1; 2]%Q)] None false
              (World {[1%positive := [(KStr "x", NumArray [1; 2]%Q)]]} []))
    as (w' & Hrun & Hget & _).
  - cbn. apply lookup_insert_eq.
  - reflexivity.
  - exists w'. split; [exact Hrun | exact Hget].
Defined.

(** C4, as stated, fails: with [add_intercept] left at [True] the intercept
    column of the caller is overwritten by ones, in the caller's own dict. *)
Lemma caller_intercept_overwritten :
  let caller := [(KStr "intercept", NumArray [5; 7]%Q)] in
  ∃ d w',
    __init__ stable_argsort no_str (NumArray [5; 7]%Q) (NumArray [1; 1]%Q)
      (StrArray ["a"; "b"]) (StrArray ["b"; "b"])
      (Some 1%positive) None true (World {[1%positive := caller]} [])
    = (Ok d, w') ∧
    covs d = 1%positive ∧
    (heap w' !! covs d ≫= dict_get (KStr "intercept"))
    = Some (NumArray [1; 1]%Q) ∧
    (heap w' !! covs d ≫= dict_get (KStr "intercept"))
    ≠ dict_get (KStr "intercept") caller.
Proof.
  eexists _, _. split; [vm_compute; reflexivity|].
  split; [reflexivity|].
  split; [vm_compute; reflexivity|]. intros Heq. vm_compute in Heq. done.
Qed.

(** C4, amended: with [add_intercept] true, the covariates of the
    constructed object are the caller's own dict, changed in place: its
    ["intercept"] entry is set to ones, one per observation, whatever the
    caller had there; every other covariate is the caller's, indexed by the
    sort when there is a [study_id]; no other dict of the store changes. *)
Theorem intercept_replaces_covariate argsort str_of_num
    o se alt ref l d0 sid w d w' :
  argsort_permutes argsort →
  wf_world w →
  heap w !! l = Some d0 →
  __init__ argsort str_of_num o se alt ref (Some l) sid true w = (Ok d, w') →
  covs d = l ∧
  (∃ d1,
     heap w' !! l = Some d1 ∧
     dict_get (KStr "intercept") d1 = Some (np_ones (size o)) ∧
     ∀ k, k ≠ KStr "intercept" →
          dict_get k d1
          = dict_get k d0 ≫= λ x,
              match sid with
              | None => Some x
              | Some ids => index_array x (argsort ids)
              end) ∧
  (∀ l', l' ≠ l → heap w' !! l' = heap w !! l').
Proof.
  intros Hperm Hwf Hd0 Hrun.
  apply init_covariates in Hrun
    as (d0' & d1 & Hd0' & Hv & Hl & _ & _ & _ & Hheap & Hd1); [|done].
  cbn in Hd0', Hl. rewrite Hd0 in Hd0'. injection Hd0' as <-.
  rewrite Hheap. unfold prepared_dict in *. cbn [orb] in *.
  split_and!; [done| |by intros l' Hl'; rewrite lookup_insert_ne].
  exists d1. split; [apply lookup_insert_eq|].
  destruct sid as [ids|].
  - apply valid_inputs_inv in Hv as ((xs & -> & Hxs) & _ & _ & _ & _ & Hids).
    destruct Hids as (zs & -> & Hzs).
    assert (length (argsort (NumArray zs)) = length xs) as Hlen.
    { rewrite (Hperm (NumArray zs)), length_seq. cbn. lia. }
    split.
    + rewrite (permute_dict_get _ _ _ _ Hd1), dict_get_set_eq. cbn -[np_ones].
      destruct (index_array (np_ones _) _) as [a|] eqn:Ha.
      * apply index_array_ones in Ha. by rewrite Ha, Hlen.
      * apply eq_None_not_Some in Ha. destruct Ha.
        apply index_array_is_Some.
        pose proof (Hperm (NumArray zs)) as Hp. cbn in *.
        by rewrite length_replicate, <- Hzs.
    + intros k Hk. rewrite (permute_dict_get _ _ _ _ Hd1).
      by rewrite dict_get_set_ne.
  - subst d1. split; [apply dict_get_set_eq|].
    intros k Hk. rewrite dict_get_set_ne by done.
    by destruct (dict_get k d0).
Qed.

Lemma intercept_replaces_covariate_witness :
  ∃ d w',
    __init__ stable_argsort no_str (NumArray [5; 7]%Q) (NumArray [1; 1]%Q)
      (StrArray ["a"; "b"]) (StrArray ["b"; "b"]) (Some 1%positive)
      (Some (NumArray [2; 1]%Q)) true
      (World {[1%positive := [(KStr "intercept", NumArray [5; 7]%Q);
                              (KStr "x", NumArray [3; 4]%Q)]]} [])
    = (Ok d, w') ∧
    ∃ d1, heap w' !! 1%positive = Some d1 ∧
          dict_get (KStr "intercept") d1 = Some (NumArray [1; 1]%Q) ∧
          dict_get (KStr "x") d1 = Some (NumArray [4; 3]%Q).
Proof.
  eexists _, _. split; [vm_compute; reflexivity|].
  edestruct (intercept_replaces_covariate stable_argsort no_str
              (NumArray [5; 7]%Q) (NumArray [1; 1]%Q)
              (StrArray ["a"; "b"]) (StrArray ["b"; "b"]) 1%positive
              [(KStr "intercept", NumArray [5; 7]%Q);
               (KStr "x", NumArray [3; 4]%Q)]
              (Some (NumArray [2; 1]%Q))
              (World {[1%positive := [(KStr "intercept", NumArray [5; 7]%Q);
                                      (KStr "x", NumArray [3; 4]%Q)]]} []))
    as (_ & (d1 & Hd1 & Hi & Hx) & _).
  - exact stable_argsort_permutes.
  - intros l d Hl. cbn in Hl.
    apply lookup_singleton_Some in Hl as [_ <-]. vm_compute.
    apply NoDup_cons. split; [by intros [[=]|[]%elem_of_nil]%elem_of_cons|].
    apply NoDup_singleton.
  - cbn. apply lookup_insert_eq.
  - vm_compute. reflexivity.
  - exists d1. split; [exact Hd1|]. split; [exact Hi|].
    rewrite (Hx (KStr "x")) by done. reflexivity.
Defined.

Lemma valid_inputs_intercept o se alt ref sid n :
  valid_inputs o se alt ref [] sid n = true →
  valid_inputs o se alt ref [(KStr "intercept", np_ones n)] sid n = true.
Proof.
  unfold valid_inputs. cbn [dict_keys fmap list_fmap forallb fst].
  unfold cov_ok. cbn [dict_get is_str]. rewrite decide_True by done.
  cbn [np_ones is_numerical_array andb].
  rewrite (bool_decide_eq_true_2 (length (replicate _ _) = _));
    [|apply length_replicate].
  by rewrite !andb_true_r.
Qed.

(** C6: with no covariates and [add_intercept = False], valid inputs (at
    least one observation) are still accepted: the constructor warns, and
    the covariates of the object are the intercept alone, 1.0 at every
    observation. *)
Theorem intercept_guarantee argsort str_of_num o se alt ref cv sid w :
  argsort_permutes argsort →
  wf_world w →
  covs_dict cv w = Some [] →
  valid_inputs o se (astype_str str_of_num alt) (astype_str str_of_num ref)
    [] sid (size o) = true →
  0 < size o →
  ∃ d w',
    __init__ argsort str_of_num o se alt ref cv sid false w = (Ok d, w') ∧
    heap w' !! covs d = Some [(KStr "intercept", np_ones (size o))] ∧
    np_ones (size o) = NumArray (replicate (num_obs d) 1%Q) ∧
    num_covs d = 1 ∧
    warned w' = warned w ++ [intercept_warning].
Proof.
  intros Hperm Hwf Hd0 Hv Hn. apply valid_inputs_intercept in Hv as Hv'.
  destruct (init_accepts argsort str_of_num o se alt ref cv [] sid false w)
    as (d & w' & Hrun); [done..|].
  exists d, w'. split; [done|].
  apply init_covariates in Hrun
    as (d0 & d1 & Hd0' & _ & Hl & Hobs & Hc & Hw & Hheap & Hd1); [|done].
  rewrite Hd0 in Hd0'. injection Hd0' as <-. cbn in Hc, Hw, Hd1.
  rewrite Hheap, Hl, Hobs, lookup_insert_eq. split_and!; [|done..].
  destruct sid as [ids|]; [|by subst d1].
  apply valid_inputs_inv in Hv as (_ & _ & _ & _ & _ & (zs & -> & Hzs)).
  unfold permute_dict in Hd1. cbn in Hd1.
  destruct (gather _ _) as [ys|] eqn:Hg; [|done].
  apply gather_replicate in Hg. injection Hd1 as <-.
  rewrite Hg, (Hperm (NumArray zs)), length_seq. cbn. by rewrite Hzs.
Qed.

Lemma intercept_guarantee_witness :
  ∃ d w',
    __init__ stable_argsort no_str (NumArray [5; 7]%Q) (NumArray [1; 1]%Q)
      (StrArray ["a"; "b"]) (StrArray ["b"; "b"]) None
      (Some (NumArray [2; 1]%Q)) false empty_world = (Ok d, w') ∧
    heap w' !! covs d = Some [(KStr "intercept", NumArray [1; 1]%Q)] ∧
    warned w' = [intercept_warning].
Proof.
  destruct (intercept_guarantee stable_argsort no_str
              (NumArray [5; 7]%Q) (NumArray [1; 1]%Q)
              (StrArray ["a"; "b"]) (StrArray ["b"; "b"]) None
              (Some (NumArray [2; 1]%Q)) empty_world)
    as (d & w' & Hrun & Hcovs & _ & _ & Hw).
  - exact stable_argsort_permutes.
  - exact wf_empty_world.
  - reflexivity.
  - reflexivity.
  - cbn. lia.
  - exists d, w'. split; [exact Hrun|]. split; [exact Hcovs | exact Hw].
Defined.

(** ** Records *)

Lemma rows_is_Some cols n :
  Forall (λ a, size a = n) cols → is_Some (rows cols n).
Proof.
  intros Hcols. apply mapM_is_Some_2, Forall_forall.
  intros i Hi%elem_of_seq. apply mapM_is_Some_2.
  eapply Forall_impl; [done|]. intros a Ha. cbn in *.
  apply lookup_lt_is_Some. rewrite size_scalars. lia.
Qed.

Lemma rows_lookup cols n rs i :
  rows cols n = Some rs → i < n → rs !! i = row cols i.
Proof.
  intros Hrs%mapM_Some_1 Hi.
  destruct (Forall2_lookup_l _ _ _ i i Hrs) as (r & -> & Hr);
    [by apply lookup_seq_lt | done].
Qed.

Lemma rows_length cols n rs : rows cols n = Some rs → length rs = n.
Proof. intros Hrs%length_mapM. by rewrite length_seq in Hrs. Qed.

Lemma row_index cols cols' p i j :
  Forall2 (λ a a', index_array a p = Some a') cols cols' →
  p !! i = Some j → row cols' i = row cols j.
Proof.
  intros Hcols Hij. unfold row.
  induction Hcols as [|a a' cols cols' Ha _ IH]; [done|]. cbn.
  apply index_array_scalars in Ha.
  by rewrite (gather_lookup _ _ _ _ _ Ha Hij), IH.
Qed.

(** Indexing every column by one permutation of the positions permutes the
    records. *)
Lemma rows_permuted cols cols' p n :
  p ≡ₚ seq 0 n →
  Forall (λ a, size a = n) cols →
  Forall2 (λ a a', index_array a p = Some a') cols cols' →
  ∃ rs rs',
    rows cols n = Some rs ∧ rows cols' n = Some rs' ∧
    gather rs p = Some rs' ∧ rs' ≡ₚ rs.
Proof.
  intros Hp Hcols Hidx.
  assert (length p = n) as Hlen by by rewrite Hp, length_seq.
  destruct (rows_is_Some cols n Hcols) as [rs Hrs].
  destruct (rows_is_Some cols' n) as [rs' Hrs'].
  { apply Forall_forall. intros a' Ha'.
    apply list_elem_of_lookup in Ha' as [k Hk].
    destruct (Forall2_lookup_r _ _ _ _ _ Hidx Hk) as (a & _ & Ha).
    apply index_array_size in Ha. lia. }
  assert (gather rs p = Some rs') as Hg.
  { apply mapM_Some_2, Forall2_same_length_lookup.
    pose proof (rows_length _ _ _ Hrs'). split; [lia|].
    intros i j r' Hij Hr'.
    assert (i < n) by (apply lookup_lt_Some in Hij; lia).
    assert (j < n).
    { apply list_elem_of_lookup_2 in Hij. rewrite Hp in Hij.
      apply elem_of_seq in Hij. lia. }
    rewrite (rows_lookup _ _ _ _ Hrs) by done.
    rewrite <- (row_index _ _ _ _ _ Hidx Hij).
    by rewrite <- (rows_lookup _ _ _ _ Hrs'). }
  exists rs, rs'. split_and!; [done..|].
  eapply gather_permutes; [|done].
  by rewrite (rows_length _ _ _ Hrs).
Qed.

Lemma permute_dict_values idx d d' :
  permute_dict idx d = Some d' →
  Forall2 (λ a a', index_array a idx = Some a') d.*2 d'.*2.
Proof.
  unfold permute_dict. intros Hd%mapM_Some_1.
  induction Hd as [|[k x] [k' x'] d d' Hx _ IH]; [constructor|]. cbn in *.
  destruct (index_array x idx) eqn:Hi; [|done]. cbn in Hx.
  injection Hx as <- <-. by constructor.
Qed.

Lemma covs_dict_NoDup cv w d0 :
  wf_world w → covs_dict cv w = Some d0 → NoDup (dict_keys d0).
Proof.
  intros Hwf. destruct cv as [l|]; cbn; [apply Hwf|].
  intros [= <-]. apply NoDup_nil_2.
Qed.

Lemma prepared_dict_NoDup d0 add n :
  NoDup (dict_keys d0) → NoDup (dict_keys (prepared_dict d0 add n)).
Proof. unfold prepared_dict. case_match; [apply dict_set_NoDup | done]. Qed.

(** With a [study_id], every sequence of the object is the supplied one
    indexed by [np.argsort(study_id)]. *)
Lemma init_sorted argsort str_of_num o se alt ref cv ids add w d w' :
  wf_world w →
  __init__ argsort str_of_num o se alt ref cv (Some ids) add w = (Ok d, w') →
  let p := argsort ids in
  let n := size o in
  ∃ d0 d1 ids',
    covs_dict cv w = Some d0 ∧
    valid_inputs o se (astype_str str_of_num alt) (astype_str str_of_num ref)
      (prepared_dict d0 add n) (Some ids) n = true ∧
    num_obs d = n ∧
    heap w' !! covs d = Some d1 ∧
    study_id d = Some ids' ∧
    index_array o p = Some (obs d) ∧
    index_array se p = Some (obs_se d) ∧
    index_array (astype_str str_of_num alt) p = Some (alt_dorms d) ∧
    index_array (astype_str str_of_num ref) p = Some (ref_dorms d) ∧
    index_array ids p = Some ids' ∧
    permute_dict p (prepared_dict d0 add n) = Some d1.
Proof.
  intros Hwf (d0 & u & Hd0 & Hv & Hu & Hs & d1 & Hd1 & ->)%init_inv p n;
    [|done].
  apply unsorted_object_inv in Hu
    as (Ho & Hse & Ha & Hr & Hl & _ & Hn & _).
  apply sorted_object_inv in Hs
    as ((ids' & Hi & Hid) & Ho' & Hse' & Ha' & Hr' & Hsame).
  destruct Hsame as (Hl' & Hn' & _).
  exists d0, d1, ids'. rewrite Hl', Hl, Hn', Hn, <- Ho', <- Hse', <- Ha', <- Hr'.
  rewrite Ho, Hse, Ha, Hr. cbn. rewrite lookup_insert_eq. by split_and!.
Qed.

(** C9: with a [study_id], one permutation of the positions,
    [np.argsort(study_id)], indexes the values, the standard errors, the
    definitions, the study ids and every covariate; all of them keep the
    length [num_obs], and the records of the object are a permutation of the
    records supplied. *)
Theorem lock_step_sort argsort str_of_num o se alt ref cv ids add w d w' :
  argsort_permutes argsort →
  wf_world w →
  __init__ argsort str_of_num o se alt ref cv (Some ids) add w = (Ok d, w') →
  let p := argsort ids in
  let alt' := astype_str str_of_num alt in
  let ref' := astype_str str_of_num ref in
  ∃ d0 d1 ids',
    covs_dict cv w = Some d0 ∧
    heap w' !! covs d = Some d1 ∧
    study_id d = Some ids' ∧
    let c0 := prepared_dict d0 add (size o) in
    p ≡ₚ seq 0 (num_obs d) ∧
    (index_array o p = Some (obs d) ∧
     index_array se p = Some (obs_se d) ∧
     index_array alt' p = Some (alt_dorms d) ∧
     index_array ref' p = Some (ref_dorms d) ∧
     index_array ids p = Some ids' ∧
     dict_keys d1 = dict_keys c0 ∧
     ∀ k, dict_get k d1 = dict_get k c0 ≫= λ x, index_array x p) ∧
    Forall (λ a, size a = num_obs d)
      (columns (obs d) (obs_se d) (alt_dorms d) (ref_dorms d) ids' d1) ∧
    ∃ rs rs',
      rows (columns o se alt' ref' ids c0) (num_obs d) = Some rs ∧
      rows (columns (obs d) (obs_se d) (alt_dorms d) (ref_dorms d) ids' d1)
        (num_obs d) = Some rs' ∧
      gather rs p = Some rs' ∧
      rs' ≡ₚ rs.
Proof.
  intros Hperm Hwf Hrun p alt' ref'.
  apply init_sorted in Hrun
    as (d0 & d1 & ids' & Hd0 & Hv & Hn & Hd1 & Hid & Ho & Hse & Ha & Hr & Hi
        & Hp); [|done].
  exists d0, d1, ids'. split_and!; [done..|]. intros c0.
  pose proof (valid_inputs_inv _ _ _ _ _ _ _ Hv)
    as ((xs & -> & Hxs) & (ys & -> & Hys & _) & Halt & Href & _
        & (zs & -> & Hzs)).
  assert (p ≡ₚ seq 0 (num_obs d)) as Hpn.
  { unfold p. rewrite (Hperm (NumArray zs)), Hn. cbn. by rewrite Hzs. }
  assert (Forall (λ a, size a = num_obs d)
            (columns (NumArray xs) (NumArray ys) alt' ref' (NumArray zs) c0))
    as Hcols.
  { unfold columns. rewrite Hn. apply Forall_app. split.
    - repeat constructor; cbn in *; lia.
    - apply Forall_fmap.
      eapply valid_inputs_covariates; [done|].
      by eapply prepared_dict_NoDup, covs_dict_NoDup. }
  assert (Forall2 (λ a a', index_array a p = Some a')
            (columns (NumArray xs) (NumArray ys) alt' ref' (NumArray zs) c0)
            (columns (obs d) (obs_se d) (alt_dorms d) (ref_dorms d) ids' d1))
    as Hidx.
  { unfold columns. apply Forall2_app; [by repeat constructor|].
    by apply permute_dict_values. }
  split; [done|]. split; [|split].
  - split_and!; [done..|by eapply permute_dict_keys|].
    intros k. by apply permute_dict_get.
  - apply Forall_forall. intros a' Ha'.
    apply list_elem_of_lookup in Ha' as [k Hk].
    destruct (Forall2_lookup_r _ _ _ _ _ Hidx Hk) as (a & _ & Hia).
    apply index_array_size in Hia. by rewrite Hia, Hpn, length_seq.
  - by apply rows_permuted.
Qed.

Lemma lock_step_sort_witness :
  let caller := [(KStr "x", NumArray [5; 6; 7; 8]%Q)] in
  ∃ d w' d1 rs rs',
    __init__ stable_argsort no_str (NumArray [10; 11; 12; 13]%Q)
      (NumArray [1; 2; 3; 4]%Q) (StrArray ["a"; "b"; "c"; "d"])
      (StrArray ["e"; "f"; "g"; "h"]) (Some 1%positive)
      (Some (NumArray [3; 1; 2; 1]%Q)) true (World {[1%positive := caller]} [])
    = (Ok d, w') ∧
    heap w' !! covs d = Some d1 ∧
    rows (columns (NumArray [10; 11; 12; 13]%Q) (NumArray [1; 2; 3; 4]%Q)
            (StrArray ["a"; "b"; "c"; "d"]) (StrArray ["e"; "f"; "g"; "h"])
            (NumArray [3; 1; 2; 1]%Q)
            (prepared_dict caller true 4)) 4 = Some rs ∧
    rows (columns (obs d) (obs_se d) (alt_dorms d) (ref_dorms d)
            (NumArray [1; 1; 2; 3]%Q) d1) 4 = Some rs' ∧
    rs' ≡ₚ rs.
Proof.
  intros caller.
  edestruct (lock_step_sort stable_argsort no_str (NumArray [10; 11; 12; 13]%Q)
               (NumArray [1; 2; 3; 4]%Q) (StrArray ["a"; "b"; "c"; "d"])
               (StrArray ["e"; "f"; "g"; "h"]) (Some 1%positive)
               (NumArray [3; 1; 2; 1]%Q) true
               (World {[1%positive := caller]} []))
    as (d0 & d1 & ids' & Hd0 & Hd1 & Hid & _ & _ & _ & rs & rs' & Hrs & Hrs'
        & _ & Hperm).
  - exact stable_argsort_permutes.
  - intros l d Hl. cbn in Hl.
    apply lookup_singleton_Some in Hl as [_ <-]. apply NoDup_singleton.
  - vm_compute. reflexivity.
  - cbn in Hd0. apply lookup_singleton_Some in Hd0 as [_ <-].
    cbn in Hid. injection Hid as <-.
    eexists _, _, d1, rs, rs'. split; [vm_compute; reflexivity|].
    split; [exact Hd1|]. split; [exact Hrs|]. split; [exact Hrs' | exact Hperm].
Defined.

(** ** The order of the sort *)

#[global] Instance Qle_transitive : Transitive Qle.
Proof. intros x y z. apply Qle_trans. Qed.

(** C2, as stated, fails: the sort is not stable.  The constructor sorts
    with [np.argsort] of default [kind]; with study ids [2, 2, 1, 1] the
    vectorised sort exchanges the first lane with the last and the second
    with the third, and the values [10, 11, 12, 13] become
    [13, 12, 11, 10]: the two observations of study 1 have changed places, and
    so have the two of study 2.  A stable sort gives [12, 13, 10, 11]. *)
Lemma sort_need_not_be_stable :
  ∃ d w',
    __init__ simd_argsort no_str (NumArray [10; 11; 12; 13]%Q)
      (NumArray [1; 1; 1; 1]%Q) (StrArray ["a"; "b"; "c"; "d"])
      (StrArray ["e"; "f"; "g"; "h"]) None (Some (NumArray [2; 2; 1; 1]%Q))
      true empty_world = (Ok d, w') ∧
    study_id d = Some (NumArray [1; 1; 2; 2]%Q) ∧
    obs d = NumArray [13; 12; 11; 10]%Q ∧
    obs d ≠ NumArray [12; 13; 10; 11]%Q.
Proof. eexists _, _. split; [vm_compute; reflexivity|]. by split_and!. Qed.

(** C2, amended: with a [study_id], the study ids of the object are in
    non-decreasing order, and they are the supplied ones in the order of
    [np.argsort]; which of two observations with equal study ids comes first
    is left to [np.argsort].  Where that is the vectorised sort, study ids
    [3, 1, 2, 1] and values [v0, v1, v2, v3] become [1, 1, 2, 3] and
    [v1, v3, v2, v0], as in a stable sort, while study ids [2, 2, 1, 1] become
    [1, 1, 2, 2] and the values [v3, v2, v1, v0]. *)
Theorem sorted_by_study_id argsort str_of_num o se alt ref cv ids add w d w' :
  argsort_permutes argsort →
  argsort_sorts argsort →
  wf_world w →
  __init__ argsort str_of_num o se alt ref cv (Some ids) add w = (Ok d, w') →
  (∃ zs ys,
     ids = NumArray zs ∧ study_id d = Some (NumArray ys) ∧
     gather zs (argsort ids) = Some ys ∧
     StronglySorted Qle ys ∧ ys ≡ₚ zs) ∧
  (argsort ids = simd_argsort ids →
   ∀ v0 v1 v2 v3,
     o = NumArray [v0; v1; v2; v3] →
     (ids = NumArray [3; 1; 2; 1]%Q →
      study_id d = Some (NumArray [1; 1; 2; 3]%Q) ∧
      obs d = NumArray [v1; v3; v2; v0]) ∧
     (ids = NumArray [2; 2; 1; 1]%Q →
      study_id d = Some (NumArray [1; 1; 2; 2]%Q) ∧
      obs d = NumArray [v3; v2; v1; v0])).
Proof.
  intros Hperm Hsorts Hwf Hrun.
  apply init_sorted in Hrun
    as (d0 & d1 & ids' & _ & Hv & _ & _ & Hid & Ho & _ & _ & _ & Hi & _);
    [|done].
  apply valid_inputs_inv in Hv as (_ & _ & _ & _ & _ & (zs & -> & Hzs)).
  split.
  - cbn in Hi. destruct (gather zs _) as [ys|] eqn:Hg; [|done].
    injection Hi as <-. pose proof (Hsorts zs ys Hg) as Hs.
    exists zs, ys. split_and!; [done..| |].
    + apply Sorted_StronglySorted; [apply _ | done].
    + eapply gather_permutes; [|done]. apply (Hperm (NumArray zs)).
  - intros Hp v0 v1 v2 v3 ->. rewrite Hp in Hi, Ho.
    split; intros [= ->]; cbn in Hi, Ho; injection Hi as <-;
      injection Ho as <-; done.
Qed.

Lemma sorted_by_study_id_witness :
  ∃ d w',
    __init__ simd_argsort no_str (NumArray [10; 11; 12; 13]%Q)
      (NumArray [1; 1; 1; 1]%Q) (StrArray ["a"; "b"; "c"; "d"])
      (StrArray ["e"; "f"; "g"; "h"]) None (Some (NumArray [3; 1; 2; 1]%Q))
      true empty_world = (Ok d, w') ∧
    study_id d = Some (NumArray [1; 1; 2; 3]%Q) ∧
    obs d = NumArray [11; 13; 12; 10]%Q.
Proof.
  eexists _, _. split; [vm_compute; reflexivity|].
  edestruct (sorted_by_study_id simd_argsort no_str
               (NumArray [10; 11; 12; 13]%Q)
               (NumArray [1; 1; 1; 1]%Q) (StrArray ["a"; "b"; "c"; "d"])
               (StrArray ["e"; "f"; "g"; "h"]) None (NumArray [3; 1; 2; 1]%Q)
               true empty_world) as [_ H4].
  - exact simd_argsort_permutes.
  - exact simd_argsort_sorts.
  - exact wf_empty_world.
  - vm_compute. reflexivity.
  - exact (proj1 (H4 eq_refl _ _ _ _ eq_refl) eq_refl).
Defined.

(** * Further properties *)

(** ** The summary *)

Lemma lines_nonempty s : lines s ≠ [].
Proof.
  destruct s as [|c s]; [done|]. cbn.
  destruct (Ascii.eqb c "010"%char); [done|]. by destruct (lines s).
Qed.

Lemma lines_single_cons c s :
  lines (String c s) = [String c s] → c ≠ "010"%char ∧ lines s = [s].
Proof.
  cbn. destruct (Ascii.eqb_spec c "010"%char) as [->|Hc]; [done|].
  pose proof (lines_nonempty s). destruct (lines s) as [|l ls]; [done|].
  by intros [= -> ->].
Qed.

Lemma lines_newline a b :
  lines a = [a] → lines (a +:+ newline +:+ b) = a :: lines b.
Proof.
  induction a as [|c a IH]; [done|].
  intros [Hc Ha]%lines_single_cons. specialize (IH Ha).
  change (String c a +:+ newline +:+ b) with (String c (a +:+ newline +:+ b)).
  cbn [lines]. rewrite IH.
  by destruct (Ascii.eqb_spec c "010"%char).
Qed.

Lemma lines_single_append a b :
  lines a = [a] → lines b = [b] → lines (a +:+ b) = [a +:+ b].
Proof.
  intros Ha Hb. induction a as [|c a IH]; [done|].
  apply lines_single_cons in Ha as [Hc Ha]. specialize (IH Ha).
  change (String c a +:+ b) with (String c (a +:+ b)).
  cbn [lines]. rewrite IH.
  by destruct (Ascii.eqb_spec c "010"%char).
Qed.

Lemma lines_str_of_count n : lines (str_of_count n) = [str_of_count n].
Proof.
  unfold str_of_count. induction (Nat.to_uint n) as [|d IH|d IH|d IH|d IH|d IH
    |d IH|d IH|d IH|d IH|d IH]; [done|..]; cbn; by rewrite IH.
Qed.

Lemma strip_prefix_append p s : strip_prefix p (p +:+ s) = Some s.
Proof.
  induction p as [|a p IH]; [by destruct s|].
  change (String a p +:+ s) with (String a (p +:+ s)). cbn [strip_prefix].
  by rewrite Ascii.eqb_refl.
Qed.

Lemma read_count_label label n :
  read_count label (label +:+ str_of_count n) = Some n.
Proof.
  unfold read_count, str_of_count. rewrite strip_prefix_append. cbn.
  rewrite DecimalString.NilEmpty.usu. cbn.
  by rewrite DecimalNat.Unsigned.of_to.
Qed.

(** X1: the summary has four lines, which report, in this order and each
    under its label, the numbers of observations, covariates, definitions
    and studies: reading the digits after each label gives the attribute
    back. *)
Theorem repr_reports_dimensions self :
  ∃ l1 l2 l3 l4,
    lines (__repr__ self) = [l1; l2; l3; l4] ∧
    read_count "number of observations: " l1 = Some (num_obs self) ∧
    read_count "number of covariates  : " l2 = Some (num_covs self) ∧
    read_count "number of defs/methods: " l3 = Some (num_dorms self) ∧
    read_count "number of studies     : " l4 = Some (num_studies self).
Proof.
  eexists _, _, _, _. split; [|by rewrite !read_count_label].
  unfold __repr__. cbn [String.concat].
  rewrite !lines_newline
    by (apply lines_single_append; [done | apply lines_str_of_count]).
  by rewrite lines_single_append by (done || apply lines_str_of_count).
Qed.

(** ** Validation, as a method *)

Lemma check_outcome o se alt ref l sid n nc d w :
  heap w !! l = Some d →
  check o se alt ref l sid n nc w
  = (if valid_inputs o se alt ref d sid n && bool_decide (length d = nc)
     then Ok () else Raise AssertionError, w).
Proof.
  intros Hd. destruct (decide (length d = nc)) as [<-|Hne].
  - rewrite check_spec by done. rewrite bool_decide_eq_true_2 by done.
    by rewrite andb_true_r.
  - rewrite bool_decide_eq_false_2, andb_false_r by done.
    unfold check.
    destruct (is_numerical_array o n); [|done].
    destruct (is_numerical_array se n) eqn:Hse; [|done].
    destruct se as [xs|xs]; [|done].
    unfold bind at 1 2 3. cbn.
    destruct (forallb gt0 xs); [|done]. cbn.
    destruct (bool_decide (size alt = n)); [|done].
    destruct (bool_decide (size ref = n)); [|done].
    unfold bind at 1 2 3. cbn. rewrite (read_dict_Ok _ _ _ Hd). cbn.
    by rewrite bool_decide_eq_false_2.
Qed.

Lemma is_str_KStr k : is_str k = true ↔ ∃ s, k = KStr s.
Proof.
  destruct k; cbn; (split; [|by intros [? [=]]]); [eauto | done].
Qed.

Lemma shapes_ok_valid o se alt ref d sid n :
  shapes_ok o se alt ref d sid n → valid_inputs o se alt ref d sid n = true.
Proof.
  intros ((xs & -> & Hxs) & (ys & -> & Hys & Hpos) & Halt & Href & Hcov & Hsid).
  unfold valid_inputs. cbn [is_numerical_array positive_se].
  rewrite !bool_decide_eq_true_2 by done. cbn [andb].
  assert (forallb gt0 ys = true) as ->.
  { apply forallb_forall. intros y Hy%list_elem_of_In. apply gt0_spec.
    by eapply Forall_forall in Hpos. }
  assert (forallb (cov_ok d n) (dict_keys d) = true) as ->.
  { apply forallb_forall. intros k Hk%list_elem_of_In.
    destruct (dict_get_keys d k Hk) as [x Hx]. unfold cov_ok. rewrite Hx.
    destruct (Hcov k x) as ([s ->] & zs & -> & Hzs);
      [by apply dict_get_Some_elem_of|].
    cbn. by rewrite bool_decide_eq_true_2. }
  destruct sid as [ids|]; [|done].
  destruct Hsid as (zs & -> & Hzs). cbn. by rewrite bool_decide_eq_true_2.
Qed.

Lemma valid_shapes_ok o se alt ref d sid n :
  NoDup (dict_keys d) →
  valid_inputs o se alt ref d sid n = true → shapes_ok o se alt ref d sid n.
Proof.
  intros Hnd (Ho & Hse & Halt & Href & Hcov & Hsid)%valid_inputs_inv.
  split_and!; [done..| |done].
  intros k x Hkx.
  destruct (Hcov k) as (Hk & x' & Hx' & Hnum).
  { apply list_elem_of_fmap. by exists (k, x). }
  rewrite (dict_get_elem_of _ _ _ Hnd Hkx) in Hx'. injection Hx' as <-.
  split; [by apply is_str_KStr | by apply is_numerical_array_NumArray].
Qed.

Lemma check_Ok_shapes o se alt ref l sid n nc d w :
  heap w !! l = Some d →
  NoDup (dict_keys d) →
  check o se alt ref l sid n nc w = (Ok (), w) ↔
  shapes_ok o se alt ref d sid n ∧ length d = nc.
Proof.
  intros Hd Hnd. rewrite (check_outcome _ _ _ _ _ _ _ _ d) by done.
  destruct (valid_inputs o se alt ref d sid n) eqn:Hv; cbn.
  - case_bool_decide; split; try done.
    + intros _. split; [by apply valid_shapes_ok | done].
    + by intros [_ ?].
  - split; [done|]. intros [Hs%shapes_ok_valid _]. congruence.
Qed.

(** X2: [check] passes exactly when the values and the standard errors
    are numeric sequences of [num_obs] entries, every standard error is
    positive, there are [num_obs] alt and ref definitions, [num_covs] is the
    number of covariates, every covariate has a string name and a numeric
    sequence of [num_obs] entries, and so has [study_id] when there is one.
    Otherwise it raises [AssertionError]; either way it leaves the store as
    it was. *)
Theorem check_passes_iff o se alt ref l sid n nc d w :
  heap w !! l = Some d →
  NoDup (dict_keys d) →
  (∃ r, check o se alt ref l sid n nc w = (r, w) ∧
        (r = Ok () ∨ r = Raise AssertionError)) ∧
  (check o se alt ref l sid n nc w = (Ok (), w) ↔
   shapes_ok o se alt ref d sid n ∧ length d = nc).
Proof.
  intros Hd Hnd. split; [|by apply check_Ok_shapes].
  rewrite (check_outcome _ _ _ _ _ _ _ _ d) by done.
  destruct (_ && _); eauto.
Qed.

Lemma check_passes_iff_witness :
  check (NumArray [5; 7]%Q) (NumArray [1 # 2; 3]%Q) (StrArray ["a"; "b"])
    (StrArray ["b"; "b"]) 1%positive None 2 1
    (World {[1%positive := [(KStr "x", NumArray [1; 2]%Q)]]} [])
  = (Ok (), World {[1%positive := [(KStr "x", NumArray [1; 2]%Q)]]} []) ∧
  (∃ r, check (NumArray [5; 7]%Q) (NumArray [1 # 2; 3]%Q)
          (StrArray ["a"; "b"]) (StrArray ["b"; "b"]) 1%positive None 2 2
          (World {[1%positive := [(KStr "x", NumArray [1; 2]%Q)]]} [])
        = (r, World {[1%positive := [(KStr "x", NumArray [1; 2]%Q)]]} []) ∧
        (r = Ok () ∨ r = Raise AssertionError)).
Proof.
  split.
  - apply (check_passes_iff (NumArray [5; 7]%Q) (NumArray [1 # 2; 3]%Q)
             (StrArray ["a"; "b"]) (StrArray ["b"; "b"]) 1%positive None 2 1
             [(KStr "x", NumArray [1; 2]%Q)]
             (World {[1%positive := [(KStr "x", NumArray [1; 2]%Q)]]} [])).
    + cbn. apply lookup_insert_eq.
    + apply NoDup_singleton.
    + split; [|reflexivity]. split_and!; eauto.
      * eexists. split_and!; [done..|].
        repeat constructor.
      * intros k x [= -> ->]%list_elem_of_singleton. eauto.
  - apply (check_passes_iff (NumArray [5; 7]%Q) (NumArray [1 # 2; 3]%Q)
             (StrArray ["a"; "b"]) (StrArray ["b"; "b"]) 1%positive None 2 2
             [(KStr "x", NumArray [1; 2]%Q)]
             (World {[1%positive := [(KStr "x", NumArray [1; 2]%Q)]]} [])).
    + cbn. apply lookup_insert_eq.
    + apply NoDup_singleton.
Defined.

(** ** The sort, as a method *)

Lemma index_array_NumArray xs p a :
  index_array (NumArray xs) p = Some a →
  ∃ ys, a = NumArray ys ∧ gather xs p = Some ys.
Proof. cbn. destruct (gather xs p); [|done]. intros [= <-]. eauto. Qed.

Lemma permute_dict_elem_of p d d' k x' :
  permute_dict p d = Some d' → (k, x') ∈ d' →
  ∃ x, (k, x) ∈ d ∧ index_array x p = Some x'.
Proof.
  unfold permute_dict. intros Hd%mapM_Some_1 [i Hi]%list_elem_of_lookup.
  destruct (Forall2_lookup_r _ _ _ _ _ Hd Hi) as ([k0 x] & Hkx & Hx).
  cbn in Hx. destruct (index_array x p) as [x0|] eqn:Hx0; [|done].
  injection Hx as -> ->. exists x. split; [|done].
  by eapply list_elem_of_lookup_2.
Qed.

Lemma shapes_ok_index o se alt ref d ids n p o' se' alt' ref' d' ids' :
  shapes_ok o se alt ref d (Some ids) n →
  length p = n →
  index_array o p = Some o' → index_array se p = Some se' →
  index_array alt p = Some alt' → index_array ref p = Some ref' →
  index_array ids p = Some ids' → permute_dict p d = Some d' →
  shapes_ok o' se' alt' ref' d' (Some ids') n.
Proof.
  intros ((xs & -> & Hxs) & (ys & -> & Hys & Hpos) & Halt & Href & Hcov
          & zs & -> & Hzs) Hp Ho Hse Ha Hr Hi Hd.
  apply index_array_NumArray in Ho as (xs' & -> & Hxs').
  apply index_array_NumArray in Hse as (ys' & -> & Hys').
  apply index_array_NumArray in Hi as (zs' & -> & Hzs').
  apply index_array_size in Ha, Hr.
  apply gather_length in Hxs' as Hlx. apply gather_length in Hys' as Hly.
  apply gather_length in Hzs' as Hlz.
  split_and!; [exists xs'; split; [done|lia] | | lia | lia | |
               exists zs'; split; [done|lia]].
  - exists ys'. split_and!; [done|lia|].
    apply Forall_forall. intros y Hy. eapply Forall_forall; [done|].
    by eapply gather_elem_of.
  - intros k x' Hkx'.
    destruct (permute_dict_elem_of _ _ _ _ _ Hd Hkx') as (x & Hkx & Hx).
    destruct (Hcov k x Hkx) as (Hk & ws & -> & Hws). split; [done|].
    apply index_array_NumArray in Hx as (ws' & -> & Hws').
    apply gather_length in Hws'. exists ws'. split; [done|lia].
Qed.

(** X3: [sort_by_study_id] keeps what [check] asserts.  Called on an
    object on which [check] passes, it does not raise, and [check] passes on
    the object it leaves (for any [np.argsort] that returns a permutation of
    the positions). *)
Theorem sort_keeps_check argsort self d w :
  argsort_permutes argsort →
  heap w !! covs self = Some d →
  NoDup (dict_keys d) →
  check (obs self) (obs_se self) (alt_dorms self) (ref_dorms self)
    (covs self) (study_id self) (num_obs self) (num_covs self) w
  = (Ok (), w) →
  ∃ self' w',
    sort_by_study_id argsort self w = (Ok self', w') ∧
    check (obs self') (obs_se self') (alt_dorms self') (ref_dorms self')
      (covs self') (study_id self') (num_obs self') (num_covs self') w'
    = (Ok (), w').
Proof.
  intros Hperm Hd Hnd Hcheck.
  destruct (study_id self) as [ids|] eqn:Hid.
  2:{ exists self, w. rewrite sort_by_study_id_None by done.
      by rewrite Hid. }
  apply (check_Ok_shapes _ _ _ _ _ _ _ _ d) in Hcheck as [Hs Hc]; [|done..].
  pose proof Hs as (Ho & Hse & Halt & Href & _ & zs & -> & Hzs).
  destruct Ho as (xs & Ho & Hxs). destruct Hse as (ys & Hse & Hys & _).
  assert (length (argsort (NumArray zs)) = num_obs self) as Hlen.
  { rewrite (Hperm (NumArray zs)), length_seq. done. }
  destruct (sort_by_study_id_Some argsort self (NumArray zs) d w)
    as (w' & Hrun & Hw'); [done..|].
  destruct (sorted_object_is_Some argsort self (NumArray zs)) as [s Hsort].
  { apply Hperm. }
  { rewrite Ho. cbn. lia. }
  { rewrite Hse. cbn. lia. }
  { cbn. lia. }
  { cbn. lia. }
  destruct (permute_dict_is_Some (argsort (NumArray zs)) d (num_obs self))
    as [d' Hd'].
  { rewrite (Hperm (NumArray zs)). cbn. by rewrite Hzs. }
  { destruct Hs as (_ & _ & _ & _ & Hcov & _).
    apply Forall_forall. intros [k x] Hkx.
    destruct (Hcov k x Hkx) as (_ & ws & -> & Hws). done. }
  rewrite Hsort, Hd' in Hrun. exists s, w'. split; [done|].
  rewrite (Hw' d') by eauto.
  apply sorted_object_inv in Hsort
    as ((ids' & Hi & Hid') & Ho' & Hse' & Ha' & Hr' & Hsame).
  destruct Hsame as (Hl & Hn & Hnc & _).
  rewrite Hid', Hl, Hn, Hnc.
  apply (check_Ok_shapes _ _ _ _ _ _ _ _ d').
  - cbn. apply lookup_insert_eq.
  - by rewrite (permute_dict_keys _ _ _ Hd').
  - split.
    + by eapply shapes_ok_index.
    + rewrite <- Hc. rewrite <- !(length_fmap fst).
      fold (dict_keys d') (dict_keys d).
      by rewrite (permute_dict_keys _ _ _ Hd').
Qed.

Lemma sort_keeps_check_witness :
  let self :=
    mkCWData (NumArray [10; 11; 12; 13]%Q) (NumArray [1; 2; 3; 4]%Q)
      (StrArray ["a"; "b"; "c"; "d"]) (StrArray ["e"; "f"; "g"; "h"])
      1%positive (Some (NumArray [3; 1; 2; 1]%Q)) 4 1
      0 [] (StrArray []) 0 [] (StrArray []) 0 [] (StrArray [])
      (SStr "") (SStr "") (SStr "") (SStr "") (SStr "") [] 0 [] None in
  let w := World {[1%positive := [(KStr "x", NumArray [5; 6; 7; 8]%Q)]]} [] in
  ∃ self' w',
    sort_by_study_id stable_argsort self w = (Ok self', w') ∧
    check (obs self') (obs_se self') (alt_dorms self') (ref_dorms self')
      (covs self') (study_id self') (num_obs self') (num_covs self') w'
    = (Ok (), w').
Proof.
  intros self w.
  apply (sort_keeps_check stable_argsort self
           [(KStr "x", NumArray [5; 6; 7; 8]%Q)] w).
  - exact stable_argsort_permutes.
  - cbn. apply lookup_insert_eq.
  - apply NoDup_singleton.
  - vm_compute. reflexivity.
Defined.

(** X4: [check] passes again on every constructed object, in the store
    the constructor leaves: the sort keeps the lengths, the positive standard
    errors and the covariates that [check] asserted before it. *)
Theorem constructed_passes_check argsort str_of_num
    o se alt ref cv sid add w d w' :
  argsort_permutes argsort →
  wf_world w →
  __init__ argsort str_of_num o se alt ref cv sid add w = (Ok d, w') →
  check (obs d) (obs_se d) (alt_dorms d) (ref_dorms d)
    (covs d) (study_id d) (num_obs d) (num_covs d) w'
  = (Ok (), w').
Proof.
  intros Hperm Hwf (d0 & u & Hd0 & Hv & Hu & Hd)%init_inv; [|done].
  pose proof (prepared_dict_NoDup d0 add (size o)
                (covs_dict_NoDup _ _ _ Hwf Hd0)) as Hnd.
  apply valid_shapes_ok in Hv as Hs; [|done].
  apply unsorted_object_inv in Hu
    as (Ho & Hse & Ha & Hr & Hl & Hid & Hn & Hc & _).
  destruct sid as [ids|].
  - destruct Hd as (Hsort & d1' & Hd1' & ->).
    apply sorted_object_inv in Hsort
      as ((ids' & Hi & Hid') & Ho' & Hse' & Ha' & Hr' & Hsame).
    destruct Hsame as (Hl' & Hn' & Hc' & _).
    rewrite Hid', Hl', Hn', Hc', Hl, Hn, Hc.
    rewrite Ho in Ho'. rewrite Hse in Hse'. rewrite Ha in Ha'.
    rewrite Hr in Hr'.
    apply (check_Ok_shapes _ _ _ _ _ _ _ _ d1').
    + cbn. apply lookup_insert_eq.
    + by rewrite (permute_dict_keys _ _ _ Hd1').
    + split.
      * eapply shapes_ok_index; [done| |done..].
        destruct Hs as (_ & _ & _ & _ & _ & zs & -> & Hzs).
        by rewrite (Hperm (NumArray zs)), length_seq.
      * rewrite <- !(length_fmap fst).
        fold (dict_keys d1') (dict_keys (prepared_dict d0 add (size o))).
        by rewrite (permute_dict_keys _ _ _ Hd1').
  - destruct Hd as [-> ->]. rewrite Ho, Hse, Ha, Hr, Hl, Hid, Hn, Hc.
    apply (check_Ok_shapes _ _ _ _ _ _ _ _ (prepared_dict d0 add (size o)));
      [apply prepared_world_lookup | done | done].
Qed.

Lemma constructed_passes_check_witness :
  ∃ d w',
    __init__ stable_argsort no_str (NumArray [10; 11; 12; 13]%Q)
      (NumArray [1; 2; 3; 4]%Q) (StrArray ["a"; "b"; "c"; "d"])
      (StrArray ["e"; "f"; "g"; "h"]) None (Some (NumArray [3; 1; 2; 1]%Q))
      true empty_world = (Ok d, w') ∧
    check (obs d) (obs_se d) (alt_dorms d) (ref_dorms d)
      (covs d) (study_id d) (num_obs d) (num_covs d) w' = (Ok (), w').
Proof.
  eexists _, _. split; [vm_compute; reflexivity|].
  eapply (constructed_passes_check stable_argsort no_str
            (NumArray [10; 11; 12; 13]%Q)
            (NumArray [1; 2; 3; 4]%Q) (StrArray ["a"; "b"; "c"; "d"])
            (StrArray ["e"; "f"; "g"; "h"]) None
            (Some (NumArray [3; 1; 2; 1]%Q)) true empty_world).
  - exact stable_argsort_permutes.
  - exact wf_empty_world.
  - vm_compute. reflexivity.
Defined.

(** ** The outcomes of the constructor *)

Lemma init_empty argsort str_of_num o se alt ref cv d0 sid add w :
  covs_dict cv w = Some d0 →
  valid_inputs o se (astype_str str_of_num alt) (astype_str str_of_num ref)
    (prepared_dict d0 add (size o)) sid (size o) = true →
  size o = 0 →
  __init__ argsort str_of_num o se alt ref cv sid add w
  = (Raise ValueError, prepared_world (covs_ref cv w) d0 add (size o) w).
Proof.
  intros Hd0 Hv Hn.
  assert (unsorted_object str_of_num o se (astype_str str_of_num alt)
            (astype_str str_of_num ref) (covs_ref cv w) sid
            (length (prepared_dict d0 add (size o))) = Raise ValueError) as Hu.
  { apply valid_inputs_inv in Hv as (_ & _ & Halt & Href & _).
    rewrite Hn in Halt, Href. unfold astype_str in *. cbn in Halt, Href.
    apply nil_length_inv in Halt, Href. rewrite Halt, Href. done. }
  destruct cv as [l|]; cbn in Hd0; cbn [covs_ref] in *.
  - rewrite (init_valid _ _ _ _ _ _ _ d0) by done. by rewrite Hu.
  - injection Hd0 as <-. rewrite init_None.
    rewrite (init_valid _ _ _ _ _ _ _ []); [|apply lookup_insert_eq|done].
    by rewrite Hu, prepared_world_fresh.
Qed.

(** Two stores that differ at most in the dict at [l]. *)
Lemma sort_covariate_frame l idx k w r w' :
  sort_covariate l idx k w = (r, w') →
  warned w' = warned w ∧ ∀ l', l' ≠ l → heap w' !! l' = heap w !! l'.
Proof.
  unfold sort_covariate, bind, read_dict, or_raise, take, write_dict, ret, raise.
  destruct (heap w !! l) as [d|]; [|by intros [= <- <-]].
  destruct (dict_get k d) as [x|]; [|by intros [= <- <-]].
  destruct (index_array x idx) as [x'|]; [|by intros [= <- <-]].
  intros [= <- <-]. cbn. split; [done|].
  intros l' Hl'. by rewrite lookup_insert_ne.
Qed.

Lemma sort_covariates_frame l idx ks : ∀ w r w',
  for_each ks (sort_covariate l idx) w = (r, w') →
  warned w' = warned w ∧ ∀ l', l' ≠ l → heap w' !! l' = heap w !! l'.
Proof.
  induction ks as [|k ks IH]; intros w r w'; cbn.
  - by intros [= <- <-].
  - unfold bind.
    destruct (sort_covariate l idx k w) as [[[]|e] w1] eqn:Hk;
      apply sort_covariate_frame in Hk as [Hw1 Hh1].
    + intros [Hw' Hh']%IH. split; [congruence|].
      intros l' Hl'. by rewrite Hh', Hh1.
    + by intros [= <- <-].
Qed.

Lemma sort_by_study_id_frame argsort self w r w' :
  sort_by_study_id argsort self w = (r, w') →
  warned w' = warned w ∧
  ∀ l', l' ≠ covs self → heap w' !! l' = heap w !! l'.
Proof.
  unfold sort_by_study_id. destruct (study_id self) as [ids|];
    [|by intros [= <- <-]].
  unfold take, bind at 1.
  destruct (index_array ids _); cbn; [|by intros [= <- <-]].
  unfold bind at 1.
  destruct (index_array (obs self) _); cbn; [|by intros [= <- <-]].
  unfold bind at 1.
  destruct (index_array (obs_se self) _); cbn; [|by intros [= <- <-]].
  unfold bind at 1.
  destruct (index_array (alt_dorms self) _); cbn; [|by intros [= <- <-]].
  unfold bind at 1.
  destruct (index_array (ref_dorms self) _); cbn; [|by intros [= <- <-]].
  unfold bind at 1. unfold read_dict.
  destruct (heap w !! covs self) as [d|]; [|by intros [= <- <-]].
  unfold bind.
  change (for_each (dict_keys d) _ w)
    with (for_each (dict_keys d)
            (sort_covariate (covs self) (argsort ids)) w).
  destruct (for_each _ _ w) as [[[]|e] w1] eqn:Hloop;
    apply sort_covariates_frame in Hloop; by intros [= <- <-].
Qed.

Lemma prepared_world_frame l d0 add n w :
  warned (prepared_world l d0 add n w)
  = warned w ++ (if dict_is_empty d0 && negb add
                 then [intercept_warning] else []) ∧
  ∀ l', l' ≠ l → heap (prepared_world l d0 add n w) !! l' = heap w !! l'.
Proof.
  split.
  - cbn. destruct (_ && _); [done | by rewrite app_nil_r].
  - intros l' Hl'. cbn. by rewrite lookup_insert_ne.
Qed.

(** Whatever the outcome, the store differs from the initial one by the
    warning and in the dict of the covariates. *)
Lemma init_frame argsort str_of_num o se alt ref cv d0 sid add w r w' :
  covs_dict cv w = Some d0 →
  __init__ argsort str_of_num o se alt ref cv sid add w = (r, w') →
  warned w' = warned w ++ (if dict_is_empty d0 && negb add
                           then [intercept_warning] else []) ∧
  ∀ l', l' ≠ covs_ref cv w → heap w' !! l' = heap w !! l'.
Proof.
  intros Hd0 Hrun.
  pose proof (prepared_world_frame (covs_ref cv w) d0 add (size o) w)
    as [Hpw Hph].
  destruct (valid_inputs o se (astype_str str_of_num alt)
              (astype_str str_of_num ref) (prepared_dict d0 add (size o))
              sid (size o)) eqn:Hv.
  2:{ rewrite (init_rejects _ _ _ _ _ _ _ d0) in Hrun by done.
      by injection Hrun as <- <-. }
  assert (__init__ argsort str_of_num o se alt ref cv sid add w
          = match unsorted_object str_of_num o se (astype_str str_of_num alt)
                    (astype_str str_of_num ref) (covs_ref cv w) sid
                    (length (prepared_dict d0 add (size o))) with
            | Ok u =>
                sort_by_study_id argsort u
                  (prepared_world (covs_ref cv w) d0 add (size o) w)
            | Raise e =>
                (Raise e, prepared_world (covs_ref cv w) d0 add (size o) w)
            end) as Heq.
  { destruct cv as [l|]; cbn in Hd0; cbn [covs_ref].
    - by apply init_valid.
    - injection Hd0 as <-. rewrite init_None.
      rewrite (init_valid _ _ _ _ _ _ _ []); [|apply lookup_insert_eq|done].
      by rewrite prepared_world_fresh. }
  rewrite Heq in Hrun.
  destruct (unsorted_object _ _ _ _ _ _ _ _) as [u|e] eqn:Hu;
    [|by injection Hrun as <- <-].
  apply unsorted_object_inv in Hu as (_ & _ & _ & _ & Hl & _).
  apply sort_by_study_id_frame in Hrun as [Hw' Hh']. rewrite Hl in Hh'.
  split; [congruence|]. intros l' Hl'. by rewrite Hh', Hph.
Qed.

(** X5: the constructor warns exactly when it is given no covariates
    and [add_intercept = False], once, and whether or not it then accepts
    the inputs; it issues no other warning. *)
Theorem warns_iff_no_covariates argsort str_of_num
    o se alt ref cv d0 sid add w r w' :
  covs_dict cv w = Some d0 →
  __init__ argsort str_of_num o se alt ref cv sid add w = (r, w') →
  warned w' = warned w ++ (if dict_is_empty d0 && negb add
                           then [intercept_warning] else []).
Proof. intros Hd0 Hrun. by eapply init_frame. Qed.

Lemma warns_iff_no_covariates_witness :
  ∃ r w',
    __init__ stable_argsort no_str (NumArray [5; 7]%Q) (NumArray [1; -1]%Q)
      (StrArray ["a"; "b"]) (StrArray ["b"; "b"]) None None false empty_world
    = (r, w') ∧
    warned w' = [intercept_warning].
Proof.
  eexists _, _. split; [vm_compute; reflexivity|].
  apply (warns_iff_no_covariates stable_argsort no_str (NumArray [5; 7]%Q)
           (NumArray [1; -1]%Q) (StrArray ["a"; "b"]) (StrArray ["b"; "b"])
           None [] None false empty_world (Raise AssertionError)).
  - reflexivity.
  - vm_compute. reflexivity.
Defined.

(** X6: whatever the outcome, the constructor changes no dict of the
    store other than the one passed as [covs]; with [covs] omitted, it
    changes no dict that exists. *)
Theorem other_dicts_untouched argsort str_of_num
    o se alt ref cv sid add w r w' l d :
  __init__ argsort str_of_num o se alt ref cv sid add w = (r, w') →
  heap w !! l = Some d →
  cv ≠ Some l →
  heap w' !! l = Some d.
Proof.
  intros Hrun Hl Hcv.
  destruct (covs_dict cv w) as [d0|] eqn:Hd0.
  - eapply init_frame in Hrun as [_ Hh]; [|done]. rewrite Hh; [done|].
    destruct cv as [l0|]; cbn; [congruence|].
    intros ->. pose proof (is_fresh (dom (heap w))) as Hf.
    apply Hf, elem_of_dom. eauto.
  - rewrite init_no_dict in Hrun by done. by injection Hrun as <- <-.
Qed.

Lemma other_dicts_untouched_witness :
  ∃ r w',
    __init__ stable_argsort no_str (NumArray [5; 7]%Q) (NumArray [1; 1]%Q)
      (StrArray ["a"; "b"]) (StrArray ["b"; "b"]) (Some 1%positive)
      (Some (NumArray [2; 1]%Q)) true
      (World {[1%positive := [(KStr "x", NumArray [3; 4]%Q)];
               2%positive := [(KStr "y", NumArray [8; 9]%Q)]]} [])
    = (r, w') ∧
    heap w' !! 2%positive = Some [(KStr "y", NumArray [8; 9]%Q)].
Proof.
  eexists _, _. split; [vm_compute; reflexivity|].
  eapply (other_dicts_untouched stable_argsort no_str (NumArray [5; 7]%Q)
            (NumArray [1; 1]%Q) (StrArray ["a"; "b"]) (StrArray ["b"; "b"])
            (Some 1%positive) (Some (NumArray [2; 1]%Q)) true
            (World {[1%positive := [(KStr "x", NumArray [3; 4]%Q)];
                     2%positive := [(KStr "y", NumArray [8; 9]%Q)]]} [])).
  - vm_compute. reflexivity.
  - vm_compute. reflexivity.
  - discriminate.
Defined.

(** X7: the three outcomes of the constructor, for any [np.argsort]
    that returns a permutation of the positions.  It returns an object
    exactly when the assertions of [check] hold of the inputs (with the
    covariates after the intercept policy) and there is at least one
    observation; when an assertion fails it raises [AssertionError]; when
    they hold of empty inputs it raises [ValueError].  It raises nothing
    else. *)
Theorem construction_outcomes argsort str_of_num o se alt ref cv d0 sid add w :
  argsort_permutes argsort →
  wf_world w →
  covs_dict cv w = Some d0 →
  let ok := shapes_ok o se (astype_str str_of_num alt)
              (astype_str str_of_num ref) (prepared_dict d0 add (size o))
              sid (size o) in
  ∃ r w',
    __init__ argsort str_of_num o se alt ref cv sid add w = (r, w') ∧
    match r with
    | Ok _ => ok ∧ 0 < size o
    | Raise AssertionError => ¬ ok
    | Raise ValueError => ok ∧ size o = 0
    | Raise _ => False
    end.
Proof.
  intros Hperm Hwf Hd0 ok.
  pose proof (prepared_dict_NoDup d0 add (size o)
                (covs_dict_NoDup _ _ _ Hwf Hd0)) as Hnd.
  destruct (valid_inputs o se (astype_str str_of_num alt)
              (astype_str str_of_num ref) (prepared_dict d0 add (size o))
              sid (size o)) eqn:Hv.
  - apply valid_shapes_ok in Hv as Hs; [|done].
    destruct (decide (size o = 0)) as [Hn|Hn].
    + eexists _, _. split; [by apply init_empty|]. done.
    + destruct (init_accepts argsort str_of_num o se alt ref cv d0 sid add w)
        as (d & w' & Hrun); [done..|lia|].
      exists (Ok d), w'. split; [done|]. split; [done|lia].
  - eexists _, _. split; [by apply init_rejects|].
    intros Hs%shapes_ok_valid. congruence.
Qed.

Lemma construction_outcomes_witness :
  ∃ r w',
    __init__ stable_argsort no_str (NumArray [5; 7]%Q) (NumArray [1; 1]%Q)
      (StrArray ["a"; "b"]) (StrArray ["b"; "b"]) None
      (Some (StrArray ["s"; "t"])) true empty_world = (r, w') ∧
    r = Raise AssertionError.
Proof.
  destruct (construction_outcomes stable_argsort no_str (NumArray [5; 7]%Q)
              (NumArray [1; 1]%Q) (StrArray ["a"; "b"]) (StrArray ["b"; "b"])
              None [] (Some (StrArray ["s"; "t"])) true empty_world)
    as (r & w' & Hrun & Hr).
  - exact stable_argsort_permutes.
  - exact wf_empty_world.
  - reflexivity.
  - exists r, w'. split; [exact Hrun|].
    vm_compute in Hrun. by injection Hrun as <- _.
Defined.

(** ** The covariates of a constructed object *)

Lemma permute_dict_length idx d d' :
  permute_dict idx d = Some d' → length d' = length d.
Proof.
  intros Hd%permute_dict_keys. apply (f_equal length) in Hd.
  unfold dict_keys in Hd. by rewrite !length_fmap in Hd.
Qed.

Lemma prepared_dict_keys d0 add n :
  dict_keys (prepared_dict d0 add n)
  = if add || dict_is_empty d0
    then if decide (KStr "intercept" ∈ dict_keys d0)
         then dict_keys d0 else dict_keys d0 ++ [KStr "intercept"]
    else dict_keys d0.
Proof.
  unfold prepared_dict. destruct (add || dict_is_empty d0); [|done].
  apply dict_keys_set.
Qed.

(** X8: a constructed object has at least one covariate, and
    [num_covs] is the number of entries of its dict.  The names are the
    caller's, in the caller's order, followed by ["intercept"] when the
    intercept is added (asked for, or forced because there are no covariates)
    and the caller had no covariate of that name. *)
Theorem covariates_never_empty argsort str_of_num
    o se alt ref cv sid add w d w' :
  wf_world w →
  __init__ argsort str_of_num o se alt ref cv sid add w = (Ok d, w') →
  ∃ d0 d1,
    covs_dict cv w = Some d0 ∧ heap w' !! covs d = Some d1 ∧
    num_covs d = length d1 ∧ 0 < num_covs d ∧
    dict_keys d1
    = if add || dict_is_empty d0
      then if decide (KStr "intercept" ∈ dict_keys d0)
           then dict_keys d0 else dict_keys d0 ++ [KStr "intercept"]
      else dict_keys d0.
Proof.
  intros Hwf (d0 & d1 & Hd0 & _ & Hl & _ & Hc & _ & Hh & Hd1)%init_covariates;
    [|done].
  exists d0, d1. rewrite Hh, Hl, lookup_insert_eq, Hc.
  assert (dict_keys d1 = dict_keys (prepared_dict d0 add (size o))) as Hk.
  { destruct sid; [by eapply permute_dict_keys | by subst]. }
  assert (length d1 = length (prepared_dict d0 add (size o))) as Hlen.
  { destruct sid; [by eapply permute_dict_length | by subst]. }
  split_and!; [done..| |by rewrite Hk, prepared_dict_keys].
  unfold prepared_dict. destruct add; cbn.
  - rewrite dict_set_length. case_decide as Hin; [|lia].
    destruct d0; [by apply elem_of_nil in Hin | cbn; lia].
  - destruct d0 as [|kx d0]; cbn; lia.
Qed.

Lemma covariates_never_empty_witness :
  ∃ d w' d1,
    __init__ stable_argsort no_str (NumArray [5; 7]%Q) (NumArray [1; 1]%Q)
      (StrArray ["a"; "b"]) (StrArray ["b"; "b"]) (Some 1%positive)
      (Some (NumArray [2; 1]%Q)) true
      (World {[1%positive := [(KStr "x", NumArray [3; 4]%Q)]]} [])
    = (Ok d, w') ∧
    heap w' !! covs d = Some d1 ∧ num_covs d = length d1 ∧
    dict_keys d1 = [KStr "x"; KStr "intercept"].
Proof.
  edestruct (covariates_never_empty stable_argsort no_str (NumArray [5; 7]%Q)
               (NumArray [1; 1]%Q) (StrArray ["a"; "b"]) (StrArray ["b"; "b"])
               (Some 1%positive) (Some (NumArray [2; 1]%Q)) true
               (World {[1%positive := [(KStr "x", NumArray [3; 4]%Q)]]} []))
    as (d0 & d1 & Hd0 & Hd1 & Hc & _ & Hk).
  - intros l d Hl. cbn in Hl.
    apply lookup_singleton_Some in Hl as [_ <-]. apply NoDup_singleton.
  - vm_compute. reflexivity.
  - cbn in Hd0. apply lookup_singleton_Some in Hd0 as [_ <-].
    eexists _, _, d1. split; [vm_compute; reflexivity|].
    split; [exact Hd1|]. split; [exact Hc | exact Hk].
Defined.

Lemma init_keeps_wf argsort str_of_num o se alt ref cv sid add w d w' :
  wf_world w →
  __init__ argsort str_of_num o se alt ref cv sid add w = (Ok d, w') →
  wf_world w'.
Proof.
  intros Hwf Hrun.
  apply init_covariates in Hrun
    as (d0 & d1 & Hd0 & _ & _ & _ & _ & _ & Hh & Hd1); [|done].
  intros l c. rewrite Hh. intros [[_ <-]|[_ Hl]]%lookup_insert_Some.
  - pose proof (prepared_dict_NoDup d0 add (size o)
                  (covs_dict_NoDup _ _ _ Hwf Hd0)) as Hnd.
    destruct sid; [by rewrite (permute_dict_keys _ _ _ Hd1) | by subst].
  - by eapply Hwf.
Qed.

(** X9: the dict of the covariates is shared, so a second object built
    from the same arguments is not the first one again.  With a [study_id],
    the second construction sorts the values once (as the first did) and
    finds the covariates already sorted by the first: it leaves them indexed
    twice by [np.argsort(study_id)], in the dict that both objects and the
    caller hold. *)
Theorem covariates_sorted_twice argsort str_of_num
    o se alt ref l d0 ids add w d1 w1 d2 w2 :
  wf_world w →
  heap w !! l = Some d0 →
  __init__ argsort str_of_num o se alt ref (Some l) (Some ids) add w
  = (Ok d1, w1) →
  __init__ argsort str_of_num o se alt ref (Some l) (Some ids) add w1
  = (Ok d2, w2) →
  covs d1 = l ∧ covs d2 = l ∧
  index_array o (argsort ids) = Some (obs d1) ∧ obs d2 = obs d1 ∧
  ∃ c2,
    heap w2 !! l = Some c2 ∧
    ∀ k, k ≠ KStr "intercept" →
         dict_get k c2
         = x ← dict_get k d0;
           x' ← index_array x (argsort ids);
           index_array x' (argsort ids).
Proof.
  intros Hwf Hd0 Hrun1 Hrun2.
  pose proof (init_keeps_wf _ _ _ _ _ _ _ _ _ _ _ _ Hwf Hrun1) as Hwf1.
  apply init_sorted in Hrun1 as Hs1; [|done].
  destruct Hs1 as (? & ? & ? & _ & _ & _ & _ & _ & Ho1 & _).
  apply init_sorted in Hrun2 as Hs2; [|done].
  destruct Hs2 as (? & ? & ? & _ & _ & _ & _ & _ & Ho2 & _).
  apply init_covariates in Hrun1
    as (d0' & c1 & Hd0' & _ & Hl1 & _ & _ & _ & Hh1 & Hc1); [|done].
  cbn in Hd0', Hl1. rewrite Hd0 in Hd0'. injection Hd0' as <-.
  apply init_covariates in Hrun2
    as (c1' & c2 & Hc1' & _ & Hl2 & _ & _ & _ & Hh2 & Hc2); [|done].
  cbn in Hc1', Hl2. rewrite Hh1, lookup_insert_eq in Hc1'.
  injection Hc1' as <-.
  split_and!; [done..|congruence|].
  exists c2. split; [by rewrite Hh2, lookup_insert_eq|].
  intros k Hk. rewrite (permute_dict_get _ _ _ _ Hc2).
  rewrite prepared_dict_get_other by done.
  rewrite (permute_dict_get _ _ _ _ Hc1).
  rewrite prepared_dict_get_other by done.
  by destruct (dict_get k d0).
Qed.

Lemma covariates_sorted_twice_witness :
  let caller := [(KStr "x", NumArray [5; 6; 7; 8]%Q)] in
  ∃ d1 w1 d2 w2 c2,
    __init__ stable_argsort no_str (NumArray [10; 11; 12; 13]%Q)
      (NumArray [1; 2; 3; 4]%Q) (StrArray ["a"; "b"; "c"; "d"])
      (StrArray ["e"; "f"; "g"; "h"]) (Some 1%positive)
      (Some (NumArray [3; 1; 2; 1]%Q)) true (World {[1%positive := caller]} [])
    = (Ok d1, w1) ∧
    __init__ stable_argsort no_str (NumArray [10; 11; 12; 13]%Q)
      (NumArray [1; 2; 3; 4]%Q) (StrArray ["a"; "b"; "c"; "d"])
      (StrArray ["e"; "f"; "g"; "h"]) (Some 1%positive)
      (Some (NumArray [3; 1; 2; 1]%Q)) true w1
    = (Ok d2, w2) ∧
    obs d2 = NumArray [11; 13; 12; 10]%Q ∧
    heap w2 !! 1%positive = Some c2 ∧
    dict_get (KStr "x") c2 = Some (NumArray [8; 5; 7; 6]%Q).
Proof.
  intros caller.
  edestruct (covariates_sorted_twice stable_argsort no_str
               (NumArray [10; 11; 12; 13]%Q)
               (NumArray [1; 2; 3; 4]%Q) (StrArray ["a"; "b"; "c"; "d"])
               (StrArray ["e"; "f"; "g"; "h"]) 1%positive caller
               (NumArray [3; 1; 2; 1]%Q) true
               (World {[1%positive := caller]} []))
    as (_ & _ & Ho1 & Ho2 & c2 & Hc2 & Hk).
  - intros l d Hl. cbn in Hl.
    apply lookup_singleton_Some in Hl as [_ <-]. apply NoDup_singleton.
  - cbn. apply lookup_insert_eq.
  - vm_compute. reflexivity.
  - vm_compute. reflexivity.
  - eexists _, _, _, _, c2.
    split; [vm_compute; reflexivity|]. split; [vm_compute; reflexivity|].
    split; [etrans; [exact Ho2 | reflexivity]|].
    split; [exact Hc2|]. by rewrite (Hk (KStr "x")).
Defined.

Lemma prepared_world_unchanged l d0 n w :
  heap w !! l = Some d0 → d0 ≠ [] → prepared_world l d0 false n w = w.
Proof.
  intros Hd0 Hne. unfold prepared_world, prepared_dict.
  destruct d0 as [|kx d0]; [done|]. cbn. by apply world_insert_id.
Qed.

(** X10: with covariates supplied, [add_intercept = False] and no
    [study_id], the constructor is free of effects: whether it returns an
    object or raises, the store (the caller's dict, the warnings) is as it
    was. *)
Theorem construction_without_effects argsort str_of_num
    o se alt ref l d0 w r w' :
  heap w !! l = Some d0 →
  d0 ≠ [] →
  __init__ argsort str_of_num o se alt ref (Some l) None false w = (r, w') →
  w' = w.
Proof.
  intros Hd0 Hne Hrun.
  pose proof (prepared_world_unchanged l d0 (size o) w Hd0 Hne) as Hw.
  destruct (valid_inputs o se (astype_str str_of_num alt)
              (astype_str str_of_num ref) (prepared_dict d0 false (size o))
              None (size o)) eqn:Hv.
  - rewrite (init_valid _ _ _ _ _ _ _ d0) in Hrun by done.
    destruct (unsorted_object _ _ _ _ _ _ _ _) as [u|e] eqn:Hu.
    + apply unsorted_object_inv in Hu as (_ & _ & _ & _ & _ & Hid & _).
      rewrite sort_by_study_id_None in Hrun by done. congruence.
    + congruence.
  - rewrite (init_invalid _ _ _ _ _ _ _ d0) in Hrun by done. congruence.
Qed.

Lemma construction_without_effects_witness :
  let w := World {[1%positive := [(KStr "x", NumArray [3; 4]%Q)]]} ["old"] in
  ∃ d,
    __init__ stable_argsort no_str (NumArray [5; 7]%Q) (NumArray [1; 1]%Q)
      (StrArray ["a"; "b"]) (StrArray ["b"; "b"]) (Some 1%positive)
      None false w = (Ok d, w).
Proof.
  intros w.
  destruct (__init__ stable_argsort no_str (NumArray [5; 7]%Q)
              (NumArray [1; 1]%Q) (StrArray ["a"; "b"]) (StrArray ["b"; "b"])
              (Some 1%positive) None false w) as [r w'] eqn:Hrun.
  rewrite (construction_without_effects stable_argsort no_str
             (NumArray [5; 7]%Q) (NumArray [1; 1]%Q) (StrArray ["a"; "b"])
             (StrArray ["b"; "b"]) 1%positive
             [(KStr "x", NumArray [3; 4]%Q)] w r w'
             (lookup_insert_eq _ _ _) ltac:(discriminate) Hrun) in Hrun |- *.
  vm_compute in Hrun. injection Hrun as <-. eauto.
Defined.

(** X11: lengths that differ are rejected.  When the standard errors,
    the alt or ref definitions, the study ids or a covariate do not have as
    many entries as the values, the constructor raises [AssertionError]; a
    covariate named ["intercept"] counts only when the intercept is not
    added, since otherwise it is replaced before the check. *)
Theorem length_mismatch_rejected argsort str_of_num
    o se alt ref cv d0 sid add w :
  covs_dict cv w = Some d0 →
  size se ≠ size o ∨ size alt ≠ size o ∨ size ref ≠ size o ∨
  (∃ ids, sid = Some ids ∧ size ids ≠ size o) ∨
  (∃ k x, dict_get k d0 = Some x ∧ size x ≠ size o ∧
          (k = KStr "intercept" → add = false)) →
  ∃ w',
    __init__ argsort str_of_num o se alt ref cv sid add w
    = (Raise AssertionError, w').
Proof.
  intros Hd0 Hbad. eexists. apply init_rejects; [done|].
  apply not_true_iff_false.
  intros (_ & (ys & -> & Hys & _) & Halt & Href & Hcov & Hsid)%valid_inputs_inv.
  rewrite !size_astype_str in *.
  destruct Hbad as [Hb|[Hb|[Hb|[(ids & -> & Hb)|(k & x & Hk & Hx & Hi)]]]];
    [done..| |].
  - destruct Hsid as (zs & -> & Hzs). done.
  - assert (dict_get k (prepared_dict d0 add (size o)) = Some x) as Hget.
    { destruct (decide (k = KStr "intercept")) as [->|Hne].
      - rewrite Hi by done. unfold prepared_dict.
        destruct d0; [done|]. done.
      - by rewrite prepared_dict_get_other. }
    destruct (Hcov k) as (_ & x' & Hx' & Hnum).
    { apply dict_get_Some_elem_of in Hget.
      apply list_elem_of_fmap. by exists (k, x). }
    rewrite Hget in Hx'. injection Hx' as <-.
    by apply is_numerical_array_size in Hnum.
Qed.

Lemma length_mismatch_rejected_witness :
  ∃ w',
    __init__ stable_argsort no_str (NumArray [5; 7]%Q) (NumArray [1; 1]%Q)
      (StrArray ["a"; "b"]) (StrArray ["b"; "b"]) (Some 1%positive)
      None true (World {[1%positive := [(KStr "x", NumArray [3]%Q)]]} [])
    = (Raise AssertionError, w').
Proof.
  apply (length_mismatch_rejected stable_argsort no_str (NumArray [5; 7]%Q)
           (NumArray [1; 1]%Q) (StrArray ["a"; "b"]) (StrArray ["b"; "b"])
           (Some 1%positive) [(KStr "x", NumArray [3]%Q)] None true
           (World {[1%positive := [(KStr "x", NumArray [3]%Q)]]} [])).
  - cbn. apply lookup_insert_eq.
  - do 4 right. exists (KStr "x"), (NumArray [3]%Q).
    split; [reflexivity|]. split; [cbn; lia | discriminate].
Defined.

(** ** The extreme definitions *)

Section arg_extremum_facts.
Context (better : nat → nat → bool) (S : nat → nat → Prop).
Hypothesis better_S : ∀ x b, better x b = true ↔ S b x.
Hypothesis S_irrefl : ∀ x, ¬ S x x.
Hypothesis S_step : ∀ b x y, S b x → ¬ S b y → ¬ S x y ∧ S y x.

Lemma arg_extremum_first l : ∀ pre bi b,
  pre !! bi = Some b →
  (∀ j x, pre !! j = Some x → ¬ S b x) →
  (∀ j x, j < bi → pre !! j = Some x → S x b) →
  ∃ m, (pre ++ l) !! arg_extremum better bi b (length pre) l = Some m ∧
       (∀ j x, (pre ++ l) !! j = Some x → ¬ S m x) ∧
       (∀ j x, j < arg_extremum better bi b (length pre) l →
               (pre ++ l) !! j = Some x → S x m).
Proof.
  induction l as [|x l IH]; intros pre bi b Hbi Hall Hfirst; cbn.
  - rewrite app_nil_r. eauto.
  - replace (pre ++ x :: l) with ((pre ++ [x]) ++ l)
      by by rewrite <- (assoc_L (++)).
    replace (Datatypes.S (length pre)) with (length (pre ++ [x]))
      by (rewrite length_app; cbn; lia).
    destruct (better x b) eqn:Hb.
    + apply better_S in Hb. apply IH.
      * by rewrite lookup_app_r, Nat.sub_diag.
      * intros j y [Hy|[_ Hy]]%lookup_app_Some.
        -- by apply (S_step b x y), Hall with j.
        -- destruct (j - length pre); [|done]. injection Hy as <-.
           apply S_irrefl.
      * intros j y Hj Hy. rewrite lookup_app_l in Hy by done.
        by apply (S_step b x y), Hall with j.
    + apply IH.
      * apply lookup_app_l_Some. done.
      * intros j y [Hy|[_ Hy]]%lookup_app_Some; [by eapply Hall|].
        destruct (j - length pre); [|done]. injection Hy as <-.
        rewrite <- better_S. congruence.
      * intros j y Hj Hy. apply lookup_lt_Some in Hbi.
        rewrite lookup_app_l in Hy by lia. by eapply Hfirst.
Qed.
End arg_extremum_facts.

Lemma argmax_first l i : argmax l = Some i → first_max l i.
Proof.
  destruct l as [|x l]; [done|]. intros [= <-].
  destruct (arg_extremum_first (λ a b, b <? a)%nat lt) with (l := l)
    (pre := [x]) (bi := 0) (b := x) as (m & Hm & Hall & Hfirst).
  - intros a b. apply Nat.ltb_lt.
  - intros a. lia.
  - intros b a y. lia.
  - done.
  - intros [|j] y; [|done]. intros [= <-]. lia.
  - intros j y. lia.
  - exists m. split_and!; [done| |done].
    intros j y Hy. apply Hall in Hy. lia.
Qed.

Lemma argmin_first l i : argmin l = Some i → first_min l i.
Proof.
  destruct l as [|x l]; [done|]. intros [= <-].
  destruct (arg_extremum_first (λ a b, a <? b)%nat gt) with (l := l)
    (pre := [x]) (bi := 0) (b := x) as (m & Hm & Hall & Hfirst).
  - intros a b. unfold gt. apply Nat.ltb_lt.
  - intros a. unfold gt. lia.
  - intros b a y. unfold gt. lia.
  - done.
  - intros [|j] y; [|done]. intros [= <-]. unfold gt. lia.
  - intros j y. lia.
  - exists m. split_and!; [done| |].
    + intros j y Hy. apply Hall in Hy. unfold gt in Hy. lia.
    + intros j y Hj Hy. by apply (Hfirst j y).
Qed.

Lemma pick_argmax_largest sizes unique s :
  pick argmax sizes unique = Ok s → largest_group sizes unique s.
Proof.
  unfold pick. destruct (argmax sizes) as [i|] eqn:Hi; [|done].
  destruct (scalars unique !! i) as [s'|] eqn:Hs; [|done]. intros [= <-].
  exists i. split; [by apply argmax_first | done].
Qed.

Lemma pick_argmin_smallest sizes unique s :
  pick argmin sizes unique = Ok s → smallest_group sizes unique s.
Proof.
  unfold pick. destruct (argmin sizes) as [i|] eqn:Hi; [|done].
  destruct (scalars unique !! i) as [s'|] eqn:Hs; [|done]. intros [= <-].
  exists i. split; [by apply argmin_first | done].
Qed.

(** X12: the extreme definitions of a constructed object.  [max_dorm]
    and [min_dorm] are the labels of greatest and of least count among all
    definitions, [max_alt_dorm] and [max_ref_dorm] those of greatest count
    among the alt and among the ref definitions, each the first such label
    of the unique ones; [min_alt_dorm] is the first label of least count
    among the ref definitions. *)
Theorem extreme_definitions argsort str_of_num o se alt ref cv sid add w d w' :
  wf_world w →
  __init__ argsort str_of_num o se alt ref cv sid add w = (Ok d, w') →
  largest_group (dorm_sizes d) (unique_dorms d) (max_dorm d) ∧
  smallest_group (dorm_sizes d) (unique_dorms d) (min_dorm d) ∧
  largest_group (alt_dorm_sizes d) (unique_alt_dorms d) (max_alt_dorm d) ∧
  largest_group (ref_dorm_sizes d) (unique_ref_dorms d) (max_ref_dorm d) ∧
  smallest_group (ref_dorm_sizes d) (unique_ref_dorms d) (min_alt_dorm d).
Proof.
  intros Hwf (d0 & u & _ & _ & Hu & Hd)%init_inv; [|done].
  apply unsorted_object_inv in Hu
    as (_ & _ & _ & _ & _ & _ & _ & _ & _ & _ & _ & H1 & H2 & H3 & H4 & H5 & _).
  assert (same_structure d u) as Hsame.
  { destruct sid as [ids|].
    - destruct Hd as [Hs _]. by apply sorted_object_inv in Hs as (_&_&_&_&_&?).
    - destruct Hd as [-> _]. unfold same_structure. by split_and!. }
  destruct Hsame as (_ & _ & _ & _ & -> & -> & _ & -> & -> & _ & -> & ->
                     & -> & -> & -> & -> & -> & _).
  split_and!; eauto using pick_argmax_largest, pick_argmin_smallest.
Qed.

Lemma extreme_definitions_witness :
  ∃ d w',
    __init__ stable_argsort no_str
      (NumArray [1; 2; 3; 4; 5; 6]%Q) (NumArray [1; 1; 1; 1; 1; 1]%Q)
      (StrArray ["A"; "B"; "B"; "B"; "B"; "B"])
      (StrArray ["A"; "A"; "C"; "C"; "C"; "D"])
      None None true empty_world = (Ok d, w') ∧
    max_dorm d = SStr "B" ∧
    largest_group (dorm_sizes d) (unique_dorms d) (max_dorm d).
Proof.
  eexists _, _. split; [vm_compute; reflexivity|]. split; [reflexivity|].
  eapply (extreme_definitions stable_argsort no_str
            (NumArray [1; 2; 3; 4; 5; 6]%Q) (NumArray [1; 1; 1; 1; 1; 1]%Q)
            (StrArray ["A"; "B"; "B"; "B"; "B"; "B"])
            (StrArray ["A"; "A"; "C"; "C"; "C"; "D"])
            None None true empty_world).
  - exact wf_empty_world.
  - vm_compute. reflexivity.
Defined.
